(** * Unscented Kalman filter (ukf.cpp): shallow embedding and properties

    The estimator of [src/ukf.cpp] is embedded as pure state-passing
    functions over a record [UKF] that holds the members of the C++ class.

    Scalars.  Every [double] is read as a real number of the Standard
    Library and every arithmetic operation as the exact real operation, so
    the development speaks about the algorithm and not about IEEE rounding;
    the narrowing [float rho = ...] of the radar initialisation is exact on
    the values used below and is read the same way.  The timestamps are
    integers ([Z]).

    Containers.  An Eigen [VectorXd] is its coefficient function
    [nat -> R], an Eigen [MatrixXd] is [nat -> nat -> R] (row, column);
    a write [M(i,j) = v] is a functional update; the dimensions that an
    Eigen object carries are passed to the operations that need them, and
    the vector of a package has the size its sensor prescribes.  Freshly
    allocated Eigen storage is not initialised by the library; it is read
    as all zeros, and on every path through ProcessMeasurement a
    coefficient is written before it is read. *)

From Stdlib Require Import Reals Lra Lia ZArith List Bool String.
Import ListNotations.

Open Scope R_scope.

(** ** libm functions that the Standard Library does not define *)

(** Truncation toward zero, the quotient that C's [fmod] uses. *)
Definition Rtrunc (r : R) : Z :=
  if Rle_dec 0 r then Int_part r else (- Int_part (- r))%Z.

(** C [fmod x y]: [x - n*y] with [n] the quotient [x/y] truncated toward
    zero; the result has the sign of [x]. *)
Definition fmod (x y : R) : R := x - IZR (Rtrunc (x / y)) * y.

(** C [fabs]. *)
Definition fabs (x : R) : R := Rabs x.

(** C [atan2 y x], with its quadrant case analysis. *)
Definition atan2 (y x : R) : R :=
  if Rlt_dec 0 x then atan (y / x)
  else if Rlt_dec x 0 then
    (if Rle_dec 0 y then atan (y / x) + PI else atan (y / x) - PI)
  else if Rlt_dec 0 y then PI / 2
  else if Rlt_dec y 0 then - (PI / 2)
  else 0.

Definition M_PI : R := PI.

(** The expression [fmod(a + M_PI, 2.0*M_PI) - M_PI] that ukf.cpp writes
    at every place where a heading or bearing difference is normalised
    (lines 222, 311, 326, 331 and 345). *)
Definition normalize_angle (a : R) : R := fmod (a + M_PI) (2.0 * M_PI) - M_PI.

(** ** Eigen vectors and matrices *)

Definition VectorXd := nat -> R.
Definition MatrixXd := nat -> nat -> R.

(** [VectorXd(n)] / [MatrixXd(r,c)]: fresh storage. *)
Definition VectorXd_new : VectorXd := fun _ => 0.
Definition MatrixXd_new : MatrixXd := fun _ _ => 0.

(** [v.fill(c)], [M.fill(c)]. *)
Definition vfill (c : R) : VectorXd := fun _ => c.
Definition mfill (c : R) : MatrixXd := fun _ _ => c.

(** [v(k) = c]. *)
Definition vset (v : VectorXd) (k : nat) (c : R) : VectorXd :=
  fun i => if Nat.eqb i k then c else v i.

(** [M(r,c) = a]. *)
Definition mset (M : MatrixXd) (r c : nat) (a : R) : MatrixXd :=
  fun i j => if Nat.eqb i r && Nat.eqb j c then a else M i j.

(** [M.col(c)] read, and [M.col(c) = v] write. *)
Definition col (M : MatrixXd) (c : nat) : VectorXd := fun i => M i c.
Definition set_col (M : MatrixXd) (c : nat) (v : VectorXd) : MatrixXd :=
  fun i j => if Nat.eqb j c then v i else M i j.

(** [v << a, b, c, ...]: the comma initialiser. *)
Definition vec_of_list (l : list R) : VectorXd := fun i => nth i l 0.

(** [MatrixXd::Identity(n, n)]. *)
Definition Identity : MatrixXd := fun i j => if Nat.eqb i j then 1 else 0.

(** [v.head(n) = w]. *)
Definition set_head (v : VectorXd) (n : nat) (w : VectorXd) : VectorXd :=
  fun i => if Nat.ltb i n then w i else v i.

(** [M.topLeftCorner(r, c) = A]. *)
Definition set_topLeftCorner (M : MatrixXd) (r c : nat) (A : MatrixXd)
  : MatrixXd :=
  fun i j => if Nat.ltb i r && Nat.ltb j c then A i j else M i j.

Definition vadd (u v : VectorXd) : VectorXd := fun i => u i + v i.
Definition vsub (u v : VectorXd) : VectorXd := fun i => u i - v i.
Definition vscale (a : R) (v : VectorXd) : VectorXd := fun i => a * v i.
Definition madd (A B : MatrixXd) : MatrixXd := fun i j => A i j + B i j.
Definition msub (A B : MatrixXd) : MatrixXd := fun i j => A i j - B i j.
Definition mscale (a : R) (A : MatrixXd) : MatrixXd := fun i j => a * A i j.
Definition transpose (A : MatrixXd) : MatrixXd := fun i j => A j i.

(** [sum_upto n f] is f 0 + ... + f (n-1), the inner sum of a product. *)
Fixpoint sum_upto (n : nat) (f : nat -> R) : R :=
  match n with
  | O => 0
  | S k => sum_upto k f + f k
  end.

(** [A * B] for an (r x inner) by (inner x c) product. *)
Definition mmul (inner : nat) (A B : MatrixXd) : MatrixXd :=
  fun i j => sum_upto inner (fun k => A i k * B k j).

(** [A * v] for a matrix with [inner] columns. *)
Definition mvmul (inner : nat) (A : MatrixXd) (v : VectorXd) : VectorXd :=
  fun i => sum_upto inner (fun k => A i k * v k).

(** [u * v.transpose()]: the outer product. *)
Definition outer (u v : VectorXd) : MatrixXd := fun i j => u i * v j.

(** [u.transpose() * A * v] for vectors of [n] coefficients: a scalar. *)
Definition quadratic_form (n : nat) (u : VectorXd) (A : MatrixXd)
  (v : VectorXd) : R :=
  sum_upto n (fun j => sum_upto n (fun i => u i * A i j) * v j).

(** [for (int i = lo; i < hi; i++) body], threading the variables that the
    body assigns. *)
Definition for_loop {A : Type} (lo hi : nat) (body : nat -> A -> A)
  (init : A) : A :=
  fold_left (fun acc i => body i acc) (seq lo (hi - lo)) init.

(** ** The measurement package and the estimator object *)

(** Modelled from the spec: the declaration of the measurement package
    (measurement_package.h) is not among the sources.  The spec gives it a
    sensor-type tag with the two variants Lidar and Radar, a raw
    measurement vector (2 or 3 scalars) and a timestamp in microseconds.
    The tag is a C++ enumeration, that is an integer that ukf.cpp compares
    with [==] against the two enumerators; the enumerators are numbered in
    declaration order, and nothing below uses more than that they differ. *)
Definition SensorType := Z.
Definition LASER : SensorType := 0%Z.
Definition RADAR : SensorType := 1%Z.

Record MeasurementPackage := {
  sensor_type_ : SensorType;
  raw_measurements_ : VectorXd;
  timestamp_ : Z
}.

(** The data members of class UKF that ukf.cpp reads and writes (the class
    declaration, ukf.h, is not among the sources; the types are those the
    code uses them at). *)
Record UKF := {
  is_initialized_ : bool;
  use_laser_ : bool;
  use_radar_ : bool;
  x_ : VectorXd;
  P_ : MatrixXd;
  Xsig_pred_ : MatrixXd;
  time_us_ : Z;
  std_a_ : R;
  std_yawdd_ : R;
  std_laspx_ : R;
  std_laspy_ : R;
  std_radr_ : R;
  std_radphi_ : R;
  std_radrd_ : R;
  weights_ : VectorXd;
  n_x_ : nat;
  n_aug_ : nat;
  lambda_ : R;
  NIS_radar_ : R;
  NIS_laser_ : R
}.

(** Assignments to single members. *)
Definition set_is_initialized_ (b : bool) (s : UKF) : UKF :=
  {| is_initialized_ := b; use_laser_ := use_laser_ s;
     use_radar_ := use_radar_ s; x_ := x_ s; P_ := P_ s;
     Xsig_pred_ := Xsig_pred_ s; time_us_ := time_us_ s;
     std_a_ := std_a_ s; std_yawdd_ := std_yawdd_ s;
     std_laspx_ := std_laspx_ s; std_laspy_ := std_laspy_ s;
     std_radr_ := std_radr_ s; std_radphi_ := std_radphi_ s;
     std_radrd_ := std_radrd_ s; weights_ := weights_ s; n_x_ := n_x_ s;
     n_aug_ := n_aug_ s; lambda_ := lambda_ s; NIS_radar_ := NIS_radar_ s;
     NIS_laser_ := NIS_laser_ s |}.

Definition set_use_laser_ (b : bool) (s : UKF) : UKF :=
  {| is_initialized_ := is_initialized_ s; use_laser_ := b;
     use_radar_ := use_radar_ s; x_ := x_ s; P_ := P_ s;
     Xsig_pred_ := Xsig_pred_ s; time_us_ := time_us_ s;
     std_a_ := std_a_ s; std_yawdd_ := std_yawdd_ s;
     std_laspx_ := std_laspx_ s; std_laspy_ := std_laspy_ s;
     std_radr_ := std_radr_ s; std_radphi_ := std_radphi_ s;
     std_radrd_ := std_radrd_ s; weights_ := weights_ s; n_x_ := n_x_ s;
     n_aug_ := n_aug_ s; lambda_ := lambda_ s; NIS_radar_ := NIS_radar_ s;
     NIS_laser_ := NIS_laser_ s |}.


Definition set_x_ (v : VectorXd) (s : UKF) : UKF :=
  {| is_initialized_ := is_initialized_ s; use_laser_ := use_laser_ s;
     use_radar_ := use_radar_ s; x_ := v; P_ := P_ s;
     Xsig_pred_ := Xsig_pred_ s; time_us_ := time_us_ s;
     std_a_ := std_a_ s; std_yawdd_ := std_yawdd_ s;
     std_laspx_ := std_laspx_ s; std_laspy_ := std_laspy_ s;
     std_radr_ := std_radr_ s; std_radphi_ := std_radphi_ s;
     std_radrd_ := std_radrd_ s; weights_ := weights_ s; n_x_ := n_x_ s;
     n_aug_ := n_aug_ s; lambda_ := lambda_ s; NIS_radar_ := NIS_radar_ s;
     NIS_laser_ := NIS_laser_ s |}.

Definition set_P_ (M : MatrixXd) (s : UKF) : UKF :=
  {| is_initialized_ := is_initialized_ s; use_laser_ := use_laser_ s;
     use_radar_ := use_radar_ s; x_ := x_ s; P_ := M;
     Xsig_pred_ := Xsig_pred_ s; time_us_ := time_us_ s;
     std_a_ := std_a_ s; std_yawdd_ := std_yawdd_ s;
     std_laspx_ := std_laspx_ s; std_laspy_ := std_laspy_ s;
     std_radr_ := std_radr_ s; std_radphi_ := std_radphi_ s;
     std_radrd_ := std_radrd_ s; weights_ := weights_ s; n_x_ := n_x_ s;
     n_aug_ := n_aug_ s; lambda_ := lambda_ s; NIS_radar_ := NIS_radar_ s;
     NIS_laser_ := NIS_laser_ s |}.

Definition set_Xsig_pred_ (M : MatrixXd) (s : UKF) : UKF :=
  {| is_initialized_ := is_initialized_ s; use_laser_ := use_laser_ s;
     use_radar_ := use_radar_ s; x_ := x_ s; P_ := P_ s;
     Xsig_pred_ := M; time_us_ := time_us_ s;
     std_a_ := std_a_ s; std_yawdd_ := std_yawdd_ s;
     std_laspx_ := std_laspx_ s; std_laspy_ := std_laspy_ s;
     std_radr_ := std_radr_ s; std_radphi_ := std_radphi_ s;
     std_radrd_ := std_radrd_ s; weights_ := weights_ s; n_x_ := n_x_ s;
     n_aug_ := n_aug_ s; lambda_ := lambda_ s; NIS_radar_ := NIS_radar_ s;
     NIS_laser_ := NIS_laser_ s |}.

Definition set_time_us_ (t : Z) (s : UKF) : UKF :=
  {| is_initialized_ := is_initialized_ s; use_laser_ := use_laser_ s;
     use_radar_ := use_radar_ s; x_ := x_ s; P_ := P_ s;
     Xsig_pred_ := Xsig_pred_ s; time_us_ := t;
     std_a_ := std_a_ s; std_yawdd_ := std_yawdd_ s;
     std_laspx_ := std_laspx_ s; std_laspy_ := std_laspy_ s;
     std_radr_ := std_radr_ s; std_radphi_ := std_radphi_ s;
     std_radrd_ := std_radrd_ s; weights_ := weights_ s; n_x_ := n_x_ s;
     n_aug_ := n_aug_ s; lambda_ := lambda_ s; NIS_radar_ := NIS_radar_ s;
     NIS_laser_ := NIS_laser_ s |}.

Definition set_NIS_radar_ (c : R) (s : UKF) : UKF :=
  {| is_initialized_ := is_initialized_ s; use_laser_ := use_laser_ s;
     use_radar_ := use_radar_ s; x_ := x_ s; P_ := P_ s;
     Xsig_pred_ := Xsig_pred_ s; time_us_ := time_us_ s;
     std_a_ := std_a_ s; std_yawdd_ := std_yawdd_ s;
     std_laspx_ := std_laspx_ s; std_laspy_ := std_laspy_ s;
     std_radr_ := std_radr_ s; std_radphi_ := std_radphi_ s;
     std_radrd_ := std_radrd_ s; weights_ := weights_ s; n_x_ := n_x_ s;
     n_aug_ := n_aug_ s; lambda_ := lambda_ s; NIS_radar_ := c;
     NIS_laser_ := NIS_laser_ s |}.

Definition set_NIS_laser_ (c : R) (s : UKF) : UKF :=
  {| is_initialized_ := is_initialized_ s; use_laser_ := use_laser_ s;
     use_radar_ := use_radar_ s; x_ := x_ s; P_ := P_ s;
     Xsig_pred_ := Xsig_pred_ s; time_us_ := time_us_ s;
     std_a_ := std_a_ s; std_yawdd_ := std_yawdd_ s;
     std_laspx_ := std_laspx_ s; std_laspy_ := std_laspy_ s;
     std_radr_ := std_radr_ s; std_radphi_ := std_radphi_ s;
     std_radrd_ := std_radrd_ s; weights_ := weights_ s; n_x_ := n_x_ s;
     n_aug_ := n_aug_ s; lambda_ := lambda_ s; NIS_radar_ := NIS_radar_ s;
     NIS_laser_ := c |}.

(** ** UKF::UKF() *)

(** The weight loop of the constructor (lines 74-78), for an augmented
    dimension [n_aug] and spreading parameter [lambda]. *)
Definition init_weights (n_aug : nat) (lambda : R) : VectorXd :=
  let weights := VectorXd_new in
  let weights := vset weights 0 (lambda / (lambda + INR n_aug)) in
  for_loop 1 (2 * n_aug + 1)
    (fun i w => vset w i (0.5 / (INR n_aug + lambda))) weights.

Definition UKF_new : UKF :=
  let n_x := 5%nat in
  let n_aug := 7%nat in
  let lambda := 3.0 - INR n_aug in
  {| is_initialized_ := false;
     use_laser_ := true;
     use_radar_ := true;
     time_us_ := 0%Z;
     std_a_ := 1.0;
     std_yawdd_ := 1.0;
     std_laspx_ := 0.15;
     std_laspy_ := 0.15;
     std_radr_ := 0.3;
     std_radphi_ := 0.03;
     std_radrd_ := 0.3;
     NIS_radar_ := 0.0;
     NIS_laser_ := 0.0;
     n_x_ := n_x;
     n_aug_ := n_aug;
     x_ := VectorXd_new;
     P_ := MatrixXd_new;
     Xsig_pred_ := MatrixXd_new;
     lambda_ := lambda;
     weights_ := init_weights n_aug lambda |}.

(** ** The interface of the Eigen factorisation *)

(** [Eigen::ComputationInfo], as far as a Cholesky factorisation reports
    it. *)
Inductive ComputationInfo : Type :=
| Success
| NumericalIssue.

(** The object that [A.llt()] returns: the factor read by [matrixL()] and
    the status read by [info()]. *)
Record LLT := {
  matrixL : MatrixXd;
  info : ComputationInfo
}.

(** ** The member functions of ukf.cpp *)

Section Estimator.

(** The two Eigen decompositions that ukf.cpp calls are library code: the
    estimator is written over any implementation of them.  The first
    argument is the dimension that the Eigen matrix carries with it. *)

(** [A.llt()] for an n x n matrix [A]. *)
Variable llt : nat -> MatrixXd -> LLT.

(** [A.inverse()] for an n x n matrix [A]. *)
Variable inverse : nat -> MatrixXd -> MatrixXd.

(** *** UKF::Prediction *)

(** Lines 137-148: the augmented mean. *)
Definition Prediction_x_aug (s : UKF) : VectorXd :=
  let x_aug := VectorXd_new in
  let x_aug := set_head x_aug (n_x_ s) (x_ s) in
  let x_aug := vset x_aug (n_x_ s) 0 in
  vset x_aug (n_x_ s + 1) 0.

(** Lines 140-154: the augmented covariance. *)
Definition Prediction_P_aug (s : UKF) : MatrixXd :=
  let P_aug := mfill 0.0 in
  let P_aug := set_topLeftCorner P_aug (n_x_ s) (n_x_ s) (P_ s) in
  let P_aug := mset P_aug (n_x_ s) (n_x_ s) (std_a_ s * std_a_ s) in
  mset P_aug (n_x_ s + 1) (n_x_ s + 1) (std_yawdd_ s * std_yawdd_ s).

(** Lines 156-165: square root and augmented sigma points.  The result of
    the factorisation is used as it comes: the code does not consult
    [llt().info()]. *)
Definition Prediction_Xsig_aug (s : UKF) : MatrixXd :=
  let x_aug := Prediction_x_aug s in
  let P_aug := Prediction_P_aug s in
  let L := matrixL (llt (n_aug_ s) P_aug) in
  let sqrt_lam_aug := sqrt (lambda_ s + INR (n_aug_ s)) in
  let Xsig_aug := set_col MatrixXd_new 0 x_aug in
  for_loop 0 (n_aug_ s)
    (fun i Xsig_aug =>
       let Xsig_aug :=
         set_col Xsig_aug (i + 1)
           (vadd x_aug (vscale sqrt_lam_aug (col L i))) in
       set_col Xsig_aug (i + 1 + n_aug_ s)
         (vsub x_aug (vscale sqrt_lam_aug (col L i))))
    Xsig_aug.

(** Lines 168-207: the body of the loop that sends sigma point [i] through
    the motion model and writes column [i] of [Xsig_pred_]. *)
Definition Prediction_sigma_body (Xsig_aug : MatrixXd) (delta_t : R)
  (i : nat) (Xsig_pred : MatrixXd) : MatrixXd :=
  let p_x := Xsig_aug 0%nat i in
  let p_y := Xsig_aug 1%nat i in
  let v := Xsig_aug 2%nat i in
  let yaw := Xsig_aug 3%nat i in
  let yawd := Xsig_aug 4%nat i in
  let nu_a := Xsig_aug 5%nat i in
  let nu_yawdd := Xsig_aug 6%nat i in
  let '(px_p, py_p) :=
    if Rgt_dec (fabs yawd) 0.001 then
      (p_x + v / yawd * (sin (yaw + yawd * delta_t) - sin yaw),
       p_y + v / yawd * (cos yaw - cos (yaw + yawd * delta_t)))
    else
      (p_x + v * delta_t * cos yaw,
       p_y + v * delta_t * sin yaw) in
  let v_p := v in
  let yaw_p := yaw + yawd * delta_t in
  let yawd_p := yawd in
  let px_p := px_p + 0.5 * nu_a * delta_t * delta_t * cos yaw in
  let py_p := py_p + 0.5 * nu_a * delta_t * delta_t * sin yaw in
  let v_p := v_p + nu_a * delta_t in
  let yaw_p := yaw_p + 0.5 * nu_yawdd * delta_t * delta_t in
  let yawd_p := yawd_p + nu_yawdd * delta_t in
  let Xsig_pred := mset Xsig_pred 0 i px_p in
  let Xsig_pred := mset Xsig_pred 1 i py_p in
  let Xsig_pred := mset Xsig_pred 2 i v_p in
  let Xsig_pred := mset Xsig_pred 3 i yaw_p in
  mset Xsig_pred 4 i yawd_p.

Definition Prediction (s : UKF) (delta_t : R) : UKF :=
  let Xsig_aug := Prediction_Xsig_aug s in
  let s :=
    set_Xsig_pred_
      (for_loop 0 (2 * n_aug_ s + 1)
         (Prediction_sigma_body Xsig_aug delta_t) (Xsig_pred_ s)) s in
  (* predict state mean *)
  let s := set_x_ (vfill 0.0) s in
  let s :=
    for_loop 0 (2 * n_aug_ s + 1)
      (fun i s =>
         set_x_ (vadd (x_ s)
                   (vscale (weights_ s i) (col (Xsig_pred_ s) i))) s) s in
  (* predict state covariance matrix *)
  let s := set_P_ (mfill 0.0) s in
  for_loop 0 (2 * n_aug_ s + 1)
    (fun i s =>
       let x_diff := vsub (col (Xsig_pred_ s) i) (x_ s) in
       let x_diff := vset x_diff 3 (normalize_angle (x_diff 3%nat)) in
       set_P_ (madd (P_ s)
                 (outer (vscale (weights_ s i) x_diff) x_diff)) s) s.

(** *** UKF::UpdateLidar *)

(** Lines 237-253: the observation matrix, the measurement noise and the
    innovation covariance. *)
Definition UpdateLidar_H : MatrixXd :=
  let H := mfill 0.0 in
  let H := mset H 0 0 1.0 in
  mset H 1 1 1.0.

Definition UpdateLidar_S (s : UKF) : MatrixXd :=
  let H := UpdateLidar_H in
  let R := mfill 0.0 in
  let R := mset R 0 0 (std_laspx_ s * std_laspx_ s) in
  let R := mset R 1 1 (std_laspy_ s * std_laspy_ s) in
  let HP := mmul (n_x_ s) H (P_ s) in
  let Ht := transpose H in
  madd (mmul (n_x_ s) HP Ht) R.

Definition UpdateLidar (s : UKF) (meas_package : MeasurementPackage) : UKF :=
  if negb (use_laser_ s) then set_NIS_laser_ 0.0 s
  else
    let n_z := 2%nat in
    let H := UpdateLidar_H in
    let HP := mmul (n_x_ s) H (P_ s) in
    let z_diff :=
      vsub (raw_measurements_ meas_package) (mvmul (n_x_ s) H (x_ s)) in
    let S := UpdateLidar_S s in
    let Si := inverse n_z S in
    let K := mmul n_z (transpose HP) Si in
    let s := set_x_ (vadd (x_ s) (mvmul n_z K z_diff)) s in
    let s := set_P_ (msub (P_ s) (mmul n_z K HP)) s in
    set_NIS_laser_ (quadratic_form n_z z_diff Si z_diff) s.

(** *** UKF::UpdateRadar *)

(** Lines 276-294: the body of the loop that maps predicted sigma point
    [i] into measurement space. *)
Definition UpdateRadar_Zsig_body (Xsig_pred : MatrixXd) (i : nat)
  (Zsig : MatrixXd) : MatrixXd :=
  let p_x := Xsig_pred 0%nat i in
  let p_y := Xsig_pred 1%nat i in
  let v := Xsig_pred 2%nat i in
  let yaw := Xsig_pred 3%nat i in
  let v1 := cos yaw * v in
  let v2 := sin yaw * v in
  let Zsig := mset Zsig 0 i (sqrt (p_x * p_x + p_y * p_y)) in
  let Zsig :=
    if Rlt_dec (Zsig 0%nat i) 0.001 then
      let Zsig := mset Zsig 0 i 0.001 in
      mset Zsig 1 i 0.0
    else
      mset Zsig 1 i (atan2 p_y p_x) in
  mset Zsig 2 i ((p_x * v1 + p_y * v2) / Zsig 0%nat i).

(** Lines 274-295: the sigma points in measurement space. *)
Definition UpdateRadar_Zsig (s : UKF) : MatrixXd :=
  for_loop 0 (2 * n_aug_ s + 1) (UpdateRadar_Zsig_body (Xsig_pred_ s))
    MatrixXd_new.

(** Lines 297-302: the predicted measurement mean. *)
Definition UpdateRadar_z_pred (s : UKF) : VectorXd :=
  let Zsig := UpdateRadar_Zsig s in
  for_loop 0 (2 * n_aug_ s + 1)
    (fun i z_pred => vadd z_pred (vscale (weights_ s i) (col Zsig i)))
    (vfill 0.0).

(** Lines 304-318: the measurement covariance with the noise added. *)
Definition UpdateRadar_S (s : UKF) : MatrixXd :=
  let Zsig := UpdateRadar_Zsig s in
  let z_pred := UpdateRadar_z_pred s in
  let S :=
    for_loop 0 (2 * n_aug_ s + 1)
      (fun i S =>
         let z_diff := vsub (col Zsig i) z_pred in
         let z_diff := vset z_diff 1 (normalize_angle (z_diff 1%nat)) in
         madd S (outer (vscale (weights_ s i) z_diff) z_diff))
      (mfill 0.0) in
  let S := mset S 0 0 (S 0%nat 0%nat + std_radr_ s * std_radr_ s) in
  let S := mset S 1 1 (S 1%nat 1%nat + std_radphi_ s * std_radphi_ s) in
  mset S 2 2 (S 2%nat 2%nat + std_radrd_ s * std_radrd_ s).

(** Lines 320-334: the cross correlation. *)
Definition UpdateRadar_Tc (s : UKF) : MatrixXd :=
  let Zsig := UpdateRadar_Zsig s in
  let z_pred := UpdateRadar_z_pred s in
  for_loop 0 (2 * n_aug_ s + 1)
    (fun i Tc =>
       let z_diff := vsub (col Zsig i) z_pred in
       let z_diff := vset z_diff 1 (normalize_angle (z_diff 1%nat)) in
       let x_diff := vsub (col (Xsig_pred_ s) i) (x_ s) in
       let x_diff := vset x_diff 3 (normalize_angle (x_diff 3%nat)) in
       madd Tc (outer (vscale (weights_ s i) x_diff) z_diff))
    (mfill 0.0).

Definition UpdateRadar (s : UKF) (meas_package : MeasurementPackage) : UKF :=
  if negb (use_radar_ s) then set_NIS_radar_ 0.0 s
  else
    let n_z := 3%nat in
    let z_pred := UpdateRadar_z_pred s in
    let S := UpdateRadar_S s in
    let Tc := UpdateRadar_Tc s in
    let Si := inverse n_z S in
    let K := mmul n_z Tc Si in
    let z_diff := vsub (raw_measurements_ meas_package) z_pred in
    let z_diff := vset z_diff 1 (normalize_angle (z_diff 1%nat)) in
    let s := set_x_ (vadd (x_ s) (mvmul n_z K z_diff)) s in
    let s := set_P_ (msub (P_ s) (mmul n_z Tc (transpose K))) s in
    set_NIS_radar_ (quadratic_form n_z z_diff Si z_diff) s.

(** *** UKF::ProcessMeasurement *)

(** Lines 89-114: the first call. *)
Definition ProcessMeasurement_init (s : UKF)
  (meas_package : MeasurementPackage) : UKF :=
  let s := set_x_ (vec_of_list [0.0; 0.0; 3.0; 0.0; 0.1]) s in
  let s := set_P_ Identity s in
  let s := set_P_ (mset (P_ s) 2 2 (1.0 * 1.0)) s in
  let s := set_P_ (mset (P_ s) 3 3 (M_PI * M_PI / 64.0)) s in
  let s := set_P_ (mset (P_ s) 4 4 (P_ s 3%nat 3%nat / 10.0)) s in
  let s :=
    if Z.eqb (sensor_type_ meas_package) RADAR then
      let rho := raw_measurements_ meas_package 1%nat in
      let s :=
        set_x_ (vset (x_ s) 0
                  (raw_measurements_ meas_package 0%nat * cos rho)) s in
      let s :=
        set_x_ (vset (x_ s) 1
                  (raw_measurements_ meas_package 0%nat * sin rho)) s in
      let s :=
        set_P_ (mset (P_ s) 0 0 (std_radr_ s * std_radr_ s * 0.5)) s in
      let s :=
        set_P_ (mset (P_ s) 1 1 (std_radr_ s * std_radr_ s * 0.5)) s in
      set_NIS_radar_ 0.0 s
    else if Z.eqb (sensor_type_ meas_package) LASER then
      let s :=
        set_x_ (vset (x_ s) 0 (raw_measurements_ meas_package 0%nat)) s in
      let s :=
        set_x_ (vset (x_ s) 1 (raw_measurements_ meas_package 1%nat)) s in
      let s :=
        set_P_ (mset (P_ s) 0 0 (std_laspx_ s * std_laspx_ s)) s in
      let s :=
        set_P_ (mset (P_ s) 1 1 (std_laspy_ s * std_laspy_ s)) s in
      set_NIS_laser_ 0.0 s
    else s in
  let s := set_time_us_ (timestamp_ meas_package) s in
  (* done initializing, no need to predict or update *)
  set_is_initialized_ true s.

Definition ProcessMeasurement (s : UKF) (meas_package : MeasurementPackage)
  : UKF :=
  if negb (is_initialized_ s) then ProcessMeasurement_init s meas_package
  else
    let dt := IZR (timestamp_ meas_package - time_us_ s) / 1000000.0 in
    let s := set_time_us_ (timestamp_ meas_package) s in
    let s := Prediction s dt in
    if Z.eqb (sensor_type_ meas_package) RADAR then
      UpdateRadar s meas_package
    else if Z.eqb (sensor_type_ meas_package) LASER then
      UpdateLidar s meas_package
    else s.

End Estimator.

(** ** What the caller of a member function observes *)

(** Every member function of ukf.cpp is [void].  The file has no [throw],
    no [try], no assertion, no call to [exit] or [abort], no status member
    and no write to an error stream; the Eigen calls it makes signal
    nothing either ([llt().info()] is never read).  A call therefore ends
    in one way: control returns to the caller with the members updated.
    [Reports] is the outcome that the error-handling requirements ask
    for. *)
Inductive outcome : Type :=
| Returns (s : UKF)
| Reports (what : string).

Definition reports_error (o : outcome) : Prop :=
  exists what, o = Reports what.

Section Calls.

Variable llt : nat -> MatrixXd -> LLT.
Variable inverse : nat -> MatrixXd -> MatrixXd.

Definition call_Prediction (s : UKF) (delta_t : R) : outcome :=
  Returns (Prediction llt s delta_t).

Definition call_UpdateLidar (s : UKF) (m : MeasurementPackage) : outcome :=
  Returns (UpdateLidar inverse s m).

Definition call_UpdateRadar (s : UKF) (m : MeasurementPackage) : outcome :=
  Returns (UpdateRadar inverse s m).

Definition call_ProcessMeasurement (s : UKF) (m : MeasurementPackage)
  : outcome :=
  Returns (ProcessMeasurement llt inverse s m).

End Calls.

(** ** Reference implementations of the Eigen decompositions *)

(** Modelled from the spec: Eigen is not among the sources.  The spec asks
    for the lower-triangular matrix square root of a covariance by a
    Cholesky-style factorisation, which fails on a matrix that is not
    positive definite.  This is the column-by-column algorithm, in place on
    a copy [mat] of the argument; it stops at the first pivot that is not
    positive and reports [NumericalIssue], leaving the remaining columns
    as they were. *)
Definition llt_column (n k : nat) (st : MatrixXd * ComputationInfo)
  : MatrixXd * ComputationInfo :=
  let '(mat, status) := st in
  match status with
  | NumericalIssue => st
  | Success =>
      let x := mat k k - sum_upto k (fun j => mat k j * mat k j) in
      if Rle_dec x 0 then (mat, NumericalIssue)
      else
        let d := sqrt x in
        let mat := mset mat k k d in
        (for_loop (k + 1) n
           (fun i mat =>
              mset mat i k
                ((mat i k - sum_upto k (fun j => mat i j * mat k j)) / d))
           mat,
         Success)
  end.

(** Modelled from the spec: Eigen is not among the sources.  The
    factorisation object of the algorithm above: [matrixL()] is the lower
    triangle of the working copy, [info()] the status. *)
Definition Eigen_llt (n : nat) (A : MatrixXd) : LLT :=
  let '(mat, status) := for_loop 0 n (llt_column n) (A, Success) in
  {| matrixL := fun i j => if Nat.leb j i then mat i j else 0;
     info := status |}.

(** The same factor with the status dropped: what a caller sees who, like
    ukf.cpp, reads [matrixL()] and never [info()]. *)
Definition Eigen_llt_unchecked (n : nat) (A : MatrixXd) : LLT :=
  {| matrixL := matrixL (Eigen_llt n A); info := Success |}.

(** The matrix without row [r] and column [c]. *)
Definition minor (A : MatrixXd) (r c : nat) : MatrixXd :=
  fun i j =>
    A (if Nat.ltb i r then i else S i) (if Nat.ltb j c then j else S j).

(** The determinant of the n x n block, expanded along the first row. *)
Fixpoint det (n : nat) (A : MatrixXd) : R :=
  match n with
  | O => 1
  | S m =>
      sum_upto (S m)
        (fun j => (-1) ^ j * A 0%nat j * det m (minor A 0 j))
  end.

(** Modelled from the spec: Eigen is not among the sources.  The spec uses
    the inverse of the innovation covariance; this is the inverse by
    cofactors, adj(A) / det(A).  On a singular matrix Eigen produces
    coefficients that are not finite; they have no counterpart among the
    real numbers, and no statement below depends on the value there. *)
Definition Eigen_inverse (n : nat) (A : MatrixXd) : MatrixXd :=
  fun i j => (-1) ^ (i + j) * det (n - 1) (minor A j i) / det n A.

(** ** Properties of matrices used in the statements *)

(** [A] (n x n) is positive definite: every vector with a nonzero
    coefficient among the first [n] has a positive quadratic form. *)
Definition positive_definite (n : nat) (A : MatrixXd) : Prop :=
  forall v : VectorXd,
    (exists i, (i < n)%nat /\ v i <> 0) -> 0 < quadratic_form n v A v.

(** [A] (n x n) is invertible: some [B] has [A * B] equal to the identity
    on the n x n block. *)
Definition invertible (n : nat) (A : MatrixXd) : Prop :=
  exists B : MatrixXd,
    forall i j, (i < n)%nat -> (j < n)%nat -> mmul n A B i j = Identity i j.

(** ** Concrete packages and estimator states used in the examples *)

(** A first radar package: range 5, bearing 0, range rate 0. *)
Definition radar_5_0_0 : MeasurementPackage :=
  {| sensor_type_ := RADAR;
     raw_measurements_ := vec_of_list [5; 0; 0];
     timestamp_ := 0%Z |}.

(** A first lidar package: x = 2, y = 3. *)
Definition lidar_2_3 : MeasurementPackage :=
  {| sensor_type_ := LASER;
     raw_measurements_ := vec_of_list [2; 3];
     timestamp_ := 0%Z |}.

(** Lidar and radar packages one second later. *)
Definition lidar_next : MeasurementPackage :=
  {| sensor_type_ := LASER;
     raw_measurements_ := vec_of_list [2; 3];
     timestamp_ := 1000000%Z |}.

Definition radar_next : MeasurementPackage :=
  {| sensor_type_ := RADAR;
     raw_measurements_ := vec_of_list [5; 0; 0];
     timestamp_ := 1000000%Z |}.

(** A package, one second later, whose tag is neither enumerator. *)
Definition unknown_next : MeasurementPackage :=
  {| sensor_type_ := 2%Z;
     raw_measurements_ := vec_of_list [2; 3];
     timestamp_ := 1000000%Z |}.

(** The estimator after construction and one lidar package. *)
Definition tracking : UKF :=
  ProcessMeasurement Eigen_llt Eigen_inverse UKF_new lidar_2_3.

(** The same with lidar processing switched off. *)
Definition tracking_laser_off : UKF := set_use_laser_ false tracking.

(** The same with a covariance that is not positive definite. *)
Definition tracking_P_zero : UKF := set_P_ (mfill 0) tracking.

(** The same with a covariance whose position block cancels the lidar
    measurement noise std_laspx_ * std_laspx_ = std_laspy_ * std_laspy_
    = 0.15 * 0.15. *)
Definition tracking_S_zero : UKF :=
  set_P_ (mscale (- (0.15 * 0.15)) Identity) tracking.

(** A matrix written row by row. *)
Definition mat_of_rows (rows : list (list R)) : MatrixXd :=
  fun i j => nth j (nth i rows []) 0.

(** ** The caller's loop *)

(** Modelled from the spec: the caller (main.cpp) is not among the
    sources.  The spec has it hand the estimator an ordered sequence of
    measurement packages, one call of ProcessMeasurement per package. *)
Definition process_all (llt : nat -> MatrixXd -> LLT)
  (inverse : nat -> MatrixXd -> MatrixXd) (ms : list MeasurementPackage)
  (s : UKF) : UKF :=
  fold_left (ProcessMeasurement llt inverse) ms s.

(** ** The prediction part of a step *)

(** The elapsed time of a step, in seconds (line 117). *)
Definition elapsed (s : UKF) (m : MeasurementPackage) : R :=
  IZR (timestamp_ m - time_us_ s) / 1000000.0.

(** The estimator after lines 117-120 of a step: the timestamp taken from
    the package and the prediction run over the elapsed time. *)
Definition predicted (llt : nat -> MatrixXd -> LLT) (s : UKF)
  (m : MeasurementPackage) : UKF :=
  Prediction llt (set_time_us_ (timestamp_ m) s) (elapsed s m).

(** ** Frames *)

(** [s'] has the members of [s] apart from the estimate: everything but
    [x_], [P_] and [Xsig_pred_] is the same. *)
Definition same_but_estimate (s s' : UKF) : Prop :=
  is_initialized_ s' = is_initialized_ s /\
  use_laser_ s' = use_laser_ s /\
  use_radar_ s' = use_radar_ s /\
  time_us_ s' = time_us_ s /\
  std_a_ s' = std_a_ s /\
  std_yawdd_ s' = std_yawdd_ s /\
  std_laspx_ s' = std_laspx_ s /\
  std_laspy_ s' = std_laspy_ s /\
  std_radr_ s' = std_radr_ s /\
  std_radphi_ s' = std_radphi_ s /\
  std_radrd_ s' = std_radrd_ s /\
  weights_ s' = weights_ s /\
  n_x_ s' = n_x_ s /\
  n_aug_ s' = n_aug_ s /\
  lambda_ s' = lambda_ s /\
  NIS_radar_ s' = NIS_radar_ s /\
  NIS_laser_ s' = NIS_laser_ s.

(** ** Predicates on estimator states and matrices *)

(** [s'] has the configuration of [s]: the enable flags, the noise
    parameters, the dimensions, the spreading parameter and the weights
    are the same. *)
Definition same_configuration (s s' : UKF) : Prop :=
  use_laser_ s' = use_laser_ s /\
  use_radar_ s' = use_radar_ s /\
  std_a_ s' = std_a_ s /\
  std_yawdd_ s' = std_yawdd_ s /\
  std_laspx_ s' = std_laspx_ s /\
  std_laspy_ s' = std_laspy_ s /\
  std_radr_ s' = std_radr_ s /\
  std_radphi_ s' = std_radphi_ s /\
  std_radrd_ s' = std_radrd_ s /\
  weights_ s' = weights_ s /\
  n_x_ s' = n_x_ s /\
  n_aug_ s' = n_aug_ s /\
  lambda_ s' = lambda_ s.

(** The dimensions, spreading parameter and weights are those that the
    constructor sets. *)
Definition constructed (s : UKF) : Prop :=
  n_x_ s = 5%nat /\ n_aug_ s = 7%nat /\ lambda_ s + 7 = 3 /\
  weights_ s = init_weights 7 (lambda_ s).

(** [A] equals its transpose. *)
Definition symmetric (A : MatrixXd) : Prop := forall i j, A i j = A j i.

(** The covariance of the estimator is symmetric. *)
Definition symmetric_covariance (s : UKF) : Prop := symmetric (P_ s).

(** The n x n block of [A] equals its transpose. *)
Definition symmetric_block (n : nat) (A : MatrixXd) : Prop :=
  forall i j, (i < n)%nat -> (j < n)%nat -> A i j = A j i.

(** [inverse] returns a symmetric block for the symmetric 2 x 2 and 3 x 3
    blocks that the updates hand it. *)
Definition inverse_keeps_symmetry (inverse : nat -> MatrixXd -> MatrixXd)
  : Prop :=
  forall A,
    (symmetric_block 2 A -> symmetric_block 2 (inverse 2%nat A)) /\
    (symmetric_block 3 A -> symmetric_block 3 (inverse 3%nat A)).

(** [B] is a right inverse of the n x n block of [A]. *)
Definition right_inverse (n : nat) (A B : MatrixXd) : Prop :=
  forall i j, (i < n)%nat -> (j < n)%nat -> mmul n A B i j = Identity i j.



(** * Properties *)

(** ** Loops *)

Lemma for_loop_empty {A : Type} (lo hi : nat) (body : nat -> A -> A)
  (init : A) :
  (hi <= lo)%nat -> for_loop lo hi body init = init.
Proof.
  intros Hle. unfold for_loop.
  replace (hi - lo)%nat with 0%nat by lia. reflexivity.
Qed.

Lemma for_loop_last {A : Type} (lo hi : nat) (body : nat -> A -> A)
  (init : A) :
  (lo <= hi)%nat ->
  for_loop lo (S hi) body init = body hi (for_loop lo hi body init).
Proof.
  intros Hle. unfold for_loop.
  replace (S hi - lo)%nat with (S (hi - lo)) by lia.
  rewrite seq_S, fold_left_app. simpl.
  replace (lo + (hi - lo))%nat with hi by lia. reflexivity.
Qed.

Lemma for_loop_first {A : Type} (lo hi : nat) (body : nat -> A -> A)
  (init : A) :
  (lo < hi)%nat ->
  for_loop lo hi body init = for_loop (S lo) hi body (body lo init).
Proof.
  intros Hlt. unfold for_loop.
  replace (hi - lo)%nat with (S (hi - S lo)) by lia. reflexivity.
Qed.

(** A property that the initial value has and every iteration keeps holds
    when the loop is left. *)
Lemma for_loop_invariant {A : Type} (Inv : A -> Prop) (lo hi : nat)
  (body : nat -> A -> A) (init : A) :
  Inv init ->
  (forall i a, (lo <= i < hi)%nat -> Inv a -> Inv (body i a)) ->
  Inv (for_loop lo hi body init).
Proof.
  intros Hinit Hstep.
  destruct (Nat.le_gt_cases lo hi) as [Hle | Hgt].
  - induction hi as [| hi IH].
    + rewrite for_loop_empty by lia. exact Hinit.
    + destruct (Nat.eq_dec lo (S hi)) as [-> | Hne].
      * rewrite for_loop_empty by lia. exact Hinit.
      * rewrite for_loop_last by lia. apply Hstep; [lia |].
        apply IH; [| lia]. intros i a Hi. apply Hstep. lia.
  - rewrite for_loop_empty by lia. exact Hinit.
Qed.

(** ** Angle normalisation *)

Lemma two_pi_pos : 0 < 2.0 * M_PI.
Proof. unfold M_PI. pose proof PI_RGT_0. lra. Qed.

Lemma Rtrunc_nonneg (r : R) : 0 <= r -> Rtrunc r = Int_part r.
Proof.
  intros Hr. unfold Rtrunc. destruct (Rle_dec 0 r); [reflexivity | lra].
Qed.

(** For a dividend that is not negative, [fmod] is the remainder in
    [0, y). *)
Lemma fmod_nonneg_range (x y : R) :
  0 <= x -> 0 < y -> 0 <= fmod x y < y.
Proof.
  intros Hx Hy. unfold fmod.
  assert (Hq : 0 <= x / y) by (apply Rle_mult_inv_pos; assumption).
  rewrite (Rtrunc_nonneg _ Hq).
  destruct (base_Int_part (x / y)) as [Hlo Hhi].
  set (k := IZR (Int_part (x / y))) in *.
  assert (Hxy : x = x / y * y) by (field; lra).
  split.
  - assert (k * y <= x / y * y) by (apply Rmult_le_compat_r; lra). lra.
  - assert (x / y * y < (k + 1) * y) by (apply Rmult_lt_compat_r; lra). lra.
Qed.

Lemma fmod_small (x y : R) : 0 <= x -> x < y -> fmod x y = x.
Proof.
  intros Hx Hxy. unfold fmod.
  assert (Hy : 0 < y) by lra.
  assert (Hq : 0 <= x / y) by (apply Rle_mult_inv_pos; assumption).
  rewrite (Rtrunc_nonneg _ Hq).
  assert (Hq1 : x / y < 1).
  { apply (Rmult_lt_reg_r y); [exact Hy |].
    replace (x / y * y) with x by (field; lra). lra. }
  rewrite <- (Int_part_spec (x / y) 0%Z) by (simpl; lra).
  simpl. lra.
Qed.

Lemma Int_part_1 : Int_part 1 = 1%Z.
Proof. symmetry. apply Int_part_spec. simpl. lra. Qed.

Lemma fmod_self (y : R) : 0 < y -> fmod y y = 0.
Proof.
  intros Hy. unfold fmod.
  replace (y / y) with 1 by (field; lra).
  rewrite Rtrunc_nonneg by lra. rewrite Int_part_1. lra.
Qed.

Lemma Rtrunc_neg1 : Rtrunc (- 1 / 2) = 0%Z.
Proof.
  unfold Rtrunc. destruct (Rle_dec 0 (- 1 / 2)) as [H | H]; [lra |].
  rewrite <- (Int_part_spec (- (- 1 / 2)) 0%Z) by (simpl; lra).
  reflexivity.
Qed.

Lemma normalize_angle_PI : normalize_angle PI = - PI.
Proof.
  unfold normalize_angle, M_PI.
  replace (PI + PI) with (2.0 * PI) by lra.
  rewrite fmod_self; [lra |]. pose proof PI_RGT_0. lra.
Qed.

(** Below -pi the expression does not normalise: the remainder keeps the
    sign of the dividend. *)
Lemma normalize_angle_minus_2PI : normalize_angle (- 2 * PI) = - 2 * PI.
Proof.
  unfold normalize_angle, M_PI, fmod. pose proof PI_RGT_0 as Hpi.
  replace ((- 2 * PI + PI) / (2.0 * PI)) with (- 1 / 2)
    by (replace 2.0 with 2 by lra; field; lra).
  rewrite Rtrunc_neg1. simpl. lra.
Qed.

(** C5, as stated, fails at the angle pi: pi lies in (-pi, pi], but the
    expression sends it to -pi, which is outside (-pi, pi] and differs
    from pi. *)
Lemma normalize_angle_PI_escapes :
  (- PI < PI <= PI) /\
  ~ (- PI < normalize_angle PI <= PI) /\
  normalize_angle PI <> PI.
Proof.
  pose proof PI_RGT_0 as Hpi. rewrite normalize_angle_PI.
  repeat split; lra.
Qed.

(** C5 (amended): for every angle that is at least -pi, the expression
    [fmod(a + M_PI, 2.0*M_PI) - M_PI] yields a result in [-pi, pi) that
    differs from the angle by a whole number of turns, and it returns
    every angle of [-pi, pi) unchanged, so that normalising twice is the
    same as normalising once. *)
Theorem normalize_angle_range (a : R) :
  - PI <= a ->
  (- PI <= normalize_angle a < PI) /\
  (exists k : Z, normalize_angle a = a - IZR k * (2 * PI)) /\
  (a < PI -> normalize_angle a = a) /\
  normalize_angle (normalize_angle a) = normalize_angle a.
Proof.
  intros Ha. pose proof PI_RGT_0 as Hpi. pose proof two_pi_pos as H2pi.
  assert (Hrange : - PI <= normalize_angle a < PI).
  { unfold normalize_angle.
    destruct (fmod_nonneg_range (a + M_PI) (2.0 * M_PI)) as [Hlo Hhi];
      unfold M_PI in *; lra. }
  assert (Hsmall : forall b, - PI <= b < PI -> normalize_angle b = b).
  { intros b Hb. unfold normalize_angle.
    rewrite fmod_small; unfold M_PI in *; lra. }
  split; [exact Hrange |]. split; [| split].
  - exists (Rtrunc ((a + M_PI) / (2.0 * M_PI))).
    unfold normalize_angle, fmod, M_PI. lra.
  - intros Hlt. apply Hsmall. lra.
  - apply Hsmall. exact Hrange.
Qed.

Lemma normalize_angle_range_witness :
  (- PI <= normalize_angle 0 < PI) /\
  (exists k : Z, normalize_angle 0 = 0 - IZR k * (2 * PI)) /\
  (0 < PI -> normalize_angle 0 = 0) /\
  normalize_angle (normalize_angle 0) = normalize_angle 0.
Proof.
  apply (normalize_angle_range 0).
  pose proof PI_RGT_0. lra.
Defined.

(** ** Sums *)

Lemma sum_upto_ext (n : nat) (f g : nat -> R) :
  (forall i, (i < n)%nat -> f i = g i) -> sum_upto n f = sum_upto n g.
Proof.
  induction n as [| n IH]; intros Hfg; simpl; [reflexivity |].
  rewrite IH by (intros i Hi; apply Hfg; lia).
  rewrite Hfg by lia. reflexivity.
Qed.

Lemma sum_upto_head_const (m : nat) (a c : R) :
  sum_upto (S m) (fun i => if Nat.eqb i 0 then a else c) = a + INR m * c.
Proof.
  induction m as [| m IH].
  - simpl. lra.
  - change (sum_upto (S (S m)) (fun i => if Nat.eqb i 0 then a else c))
      with (sum_upto (S m) (fun i => if Nat.eqb i 0 then a else c) + c).
    rewrite IH, S_INR. lra.
Qed.

Lemma sum_upto_single (n k : nat) (f : nat -> R) :
  (k < n)%nat -> (forall i, (i < n)%nat -> i <> k -> f i = 0) ->
  sum_upto n f = f k.
Proof.
  induction n as [| n IH]; intros Hk Hz; [lia |]. simpl.
  destruct (Nat.eq_dec k n) as [-> | Hne].
  - rewrite (sum_upto_ext _ _ (fun _ => 0))
      by (intros i Hi; apply Hz; lia).
    assert (H0 : forall m, sum_upto m (fun _ => 0) = 0)
      by (induction m; simpl; lra).
    rewrite H0. lra.
  - rewrite IH by (try lia; intros i Hi Hik; apply Hz; lia).
    rewrite (Hz n) by lia. lra.
Qed.

(** ** The weights *)

Lemma weights_loop_lookup (hi : nat) (c : R) (w0 : VectorXd) (i : nat) :
  for_loop 1 hi (fun k w => vset w k c) w0 i
  = if Nat.leb 1 i && Nat.ltb i hi then c else w0 i.
Proof.
  induction hi as [| hi IH].
  - rewrite for_loop_empty by lia.
    rewrite andb_false_r. reflexivity.
  - destruct (Nat.eq_dec hi 0) as [-> | Hne].
    + rewrite for_loop_empty by lia.
      destruct (Nat.leb_spec 1 i), (Nat.ltb_spec i 1); simpl;
        try reflexivity; lia.
    + rewrite for_loop_last by lia. unfold vset at 1. rewrite IH.
      destruct (Nat.eqb_spec i hi), (Nat.leb_spec 1 i),
        (Nat.ltb_spec i hi), (Nat.ltb_spec i (S hi)); simpl;
        try reflexivity; lia.
Qed.

Lemma init_weights_lookup (n : nat) (lambda : R) (i : nat) :
  init_weights n lambda i
  = if Nat.eqb i 0 then lambda / (lambda + INR n)
    else if Nat.ltb i (2 * n + 1) then 0.5 / (INR n + lambda)
    else 0.
Proof.
  unfold init_weights. rewrite weights_loop_lookup.
  unfold vset, VectorXd_new.
  destruct (Nat.eqb_spec i 0), (Nat.leb_spec 1 i),
    (Nat.ltb_spec i (2 * n + 1)); simpl; try reflexivity; lia.
Qed.

(** The weights add up to 1 whatever the augmented dimension is. *)
Lemma init_weights_sum (n : nat) (lambda : R) :
  lambda + INR n = 3 ->
  sum_upto (2 * n + 1) (init_weights n lambda) = 1.
Proof.
  intros Hl.
  rewrite (sum_upto_ext _ _
             (fun i => if Nat.eqb i 0 then lambda / (lambda + INR n)
                       else 0.5 / (INR n + lambda))).
  - replace (2 * n + 1)%nat with (S (2 * n)) by lia.
    rewrite sum_upto_head_const, mult_INR. simpl INR.
    replace (INR n + lambda) with 3 by lra. rewrite Hl.
    replace 0.5 with (1 / 2) by lra.
    replace (INR n) with (3 - lambda) by lra. field.
  - intros i Hi. rewrite init_weights_lookup.
    destruct (Nat.eqb_spec i 0); [reflexivity |].
    destruct (Nat.ltb_spec i (2 * n + 1)); [reflexivity | lia].
Qed.

(** ** What the member functions leave alone *)

Lemma same_but_estimate_refl (s : UKF) : same_but_estimate s s.
Proof. unfold same_but_estimate. repeat split. Qed.

Lemma same_but_estimate_trans (s1 s2 s3 : UKF) :
  same_but_estimate s1 s2 -> same_but_estimate s2 s3 ->
  same_but_estimate s1 s3.
Proof.
  unfold same_but_estimate. intros H12 H23.
  repeat match goal with H : _ /\ _ |- _ => destruct H end.
  repeat split; congruence.
Qed.

Section EstimatorFacts.

Variable llt : nat -> MatrixXd -> LLT.
Variable inverse : nat -> MatrixXd -> MatrixXd.

(** [Prediction] writes [Xsig_pred_], then [x_], then [P_], and nothing
    else. *)
Lemma Prediction_frame (s : UKF) (delta_t : R) :
  same_but_estimate s (Prediction llt s delta_t) /\
  Xsig_pred_ (Prediction llt s delta_t)
  = for_loop 0 (2 * n_aug_ s + 1)
      (Prediction_sigma_body (Prediction_Xsig_aug llt s) delta_t)
      (Xsig_pred_ s).
Proof.
  unfold Prediction.
  set (X := for_loop 0 (2 * n_aug_ s + 1) _ (Xsig_pred_ s)).
  set (s1 := set_x_ (vfill 0.0) (set_Xsig_pred_ X s)).
  assert (H1 : same_but_estimate s s1 /\ Xsig_pred_ s1 = X).
  { split; [| reflexivity]. unfold same_but_estimate. repeat split. }
  set (s2 := for_loop 0 (2 * n_aug_ s1 + 1) _ s1).
  assert (H2 : same_but_estimate s s2 /\ Xsig_pred_ s2 = X).
  { subst s2. apply for_loop_invariant; [exact H1 |].
    intros i a _ [Ha HX]. split; [| exact HX].
    unfold same_but_estimate in *. simpl. exact Ha. }
  set (s3 := set_P_ (mfill 0.0) s2).
  assert (H3 : same_but_estimate s s3 /\ Xsig_pred_ s3 = X).
  { destruct H2 as [Ha HX]. split; [| exact HX].
    unfold same_but_estimate in *. simpl. exact Ha. }
  apply for_loop_invariant; [exact H3 |].
  intros i a _ [Ha HX]. split; [| exact HX].
  unfold same_but_estimate in *. simpl. exact Ha.
Qed.

Lemma UpdateLidar_frame (s : UKF) (m : MeasurementPackage) :
  is_initialized_ (UpdateLidar inverse s m) = is_initialized_ s /\
  time_us_ (UpdateLidar inverse s m) = time_us_ s /\
  weights_ (UpdateLidar inverse s m) = weights_ s /\
  Xsig_pred_ (UpdateLidar inverse s m) = Xsig_pred_ s /\
  NIS_radar_ (UpdateLidar inverse s m) = NIS_radar_ s.
Proof.
  unfold UpdateLidar. destruct (use_laser_ s); simpl; repeat split.
Qed.

Lemma UpdateRadar_frame (s : UKF) (m : MeasurementPackage) :
  is_initialized_ (UpdateRadar inverse s m) = is_initialized_ s /\
  time_us_ (UpdateRadar inverse s m) = time_us_ s /\
  weights_ (UpdateRadar inverse s m) = weights_ s /\
  Xsig_pred_ (UpdateRadar inverse s m) = Xsig_pred_ s /\
  NIS_laser_ (UpdateRadar inverse s m) = NIS_laser_ s.
Proof.
  unfold UpdateRadar. destruct (use_radar_ s); simpl; repeat split.
Qed.

(** No call changes the weights, the dimensions or the spreading
    parameter. *)
Lemma ProcessMeasurement_weights (s : UKF) (m : MeasurementPackage) :
  weights_ (ProcessMeasurement llt inverse s m) = weights_ s.
Proof.
  unfold ProcessMeasurement.
  destruct (is_initialized_ s); simpl.
  - set (s1 := set_time_us_ (timestamp_ m) s).
    set (dt := IZR (timestamp_ m - time_us_ s) / 1000000.0).
    destruct (Prediction_frame s1 dt) as [Hf _].
    assert (Hw : weights_ (Prediction llt s1 dt) = weights_ s)
      by (unfold same_but_estimate in Hf; simpl in Hf; tauto).
    destruct (Z.eqb _ RADAR).
    + destruct (UpdateRadar_frame (Prediction llt s1 dt) m)
        as (_ & _ & H & _). congruence.
    + destruct (Z.eqb _ LASER); [| exact Hw].
      destruct (UpdateLidar_frame (Prediction llt s1 dt) m)
        as (_ & _ & H & _). congruence.
  - destruct (Z.eqb _ RADAR); [reflexivity |].
    destruct (Z.eqb _ LASER); reflexivity.
Qed.

End EstimatorFacts.

(** C6: the weight vector that the constructor builds has
    weight[0] = lambda/(lambda+n_aug) and every one of the remaining
    2*n_aug weights equal to 0.5/(lambda+n_aug), with lambda = 3 - n_aug;
    the 2*n_aug+1 weights add up to 1; and no later call of
    ProcessMeasurement changes the vector. *)
Theorem weights_at_construction :
  lambda_ UKF_new = 3 - INR (n_aug_ UKF_new) /\
  weights_ UKF_new 0%nat
  = lambda_ UKF_new / (lambda_ UKF_new + INR (n_aug_ UKF_new)) /\
  Forall
    (fun i =>
       weights_ UKF_new i = 0.5 / (lambda_ UKF_new + INR (n_aug_ UKF_new)))
    (seq 1 (2 * n_aug_ UKF_new)) /\
  sum_upto (2 * n_aug_ UKF_new + 1) (weights_ UKF_new) = 1 /\
  (forall llt inverse s m,
     weights_ (ProcessMeasurement llt inverse s m) = weights_ s).
Proof.
  split; [| split; [| split; [| split]]].
  - cbn [lambda_ n_aug_ UKF_new]. lra.
  - cbn [lambda_ n_aug_ weights_ UKF_new].
    rewrite init_weights_lookup. reflexivity.
  - apply Forall_forall. intros i Hi. apply in_seq in Hi.
    cbn [lambda_ n_aug_ weights_ UKF_new] in *.
    rewrite init_weights_lookup.
    destruct (Nat.eqb_spec i 0); [lia |].
    destruct (Nat.ltb_spec i (2 * 7 + 1)); [| lia].
    f_equal. lra.
  - cbn [n_aug_ weights_ UKF_new].
    apply init_weights_sum. simpl INR. lra.
  - intros llt inverse s m. apply ProcessMeasurement_weights.
Qed.

(** ** The first call *)

Lemma ProcessMeasurement_init_radar (s : UKF) (m : MeasurementPackage) :
  sensor_type_ m = RADAR ->
  x_ (ProcessMeasurement_init s m) 0%nat
  = raw_measurements_ m 0%nat * cos (raw_measurements_ m 1%nat) /\
  x_ (ProcessMeasurement_init s m) 1%nat
  = raw_measurements_ m 0%nat * sin (raw_measurements_ m 1%nat).
Proof.
  intros Htag. unfold ProcessMeasurement_init. rewrite Htag.
  split; reflexivity.
Qed.

Lemma ProcessMeasurement_init_laser (s : UKF) (m : MeasurementPackage) :
  sensor_type_ m = LASER ->
  x_ (ProcessMeasurement_init s m) 0%nat = raw_measurements_ m 0%nat /\
  x_ (ProcessMeasurement_init s m) 1%nat = raw_measurements_ m 1%nat.
Proof.
  intros Htag. unfold ProcessMeasurement_init. rewrite Htag.
  split; reflexivity.
Qed.

(** C7: on the first call (the filter not yet initialised) a radar
    package with range 5, bearing 0 and range rate 0 sets the position to
    (5, 0) and a lidar package with x = 2, y = 3 sets it to (2, 3).  In
    either case the call records the timestamp and marks the filter
    initialised, and neither prediction nor update runs: speed, heading
    and heading rate are the defaults 3, 0 and 0.1, the covariance is the
    diagonal seed, the predicted sigma points are untouched, and the
    result does not depend on the factorisation or the inverse. *)
Theorem first_measurement_initializes
  (llt : nat -> MatrixXd -> LLT) (inverse : nat -> MatrixXd -> MatrixXd)
  (s : UKF) (m : MeasurementPackage) :
  is_initialized_ s = false ->
  let s' := ProcessMeasurement llt inverse s m in
  (sensor_type_ m = RADAR ->
   raw_measurements_ m 0%nat = 5 -> raw_measurements_ m 1%nat = 0 ->
   raw_measurements_ m 2%nat = 0 ->
   x_ s' 0%nat = 5 /\ x_ s' 1%nat = 0) /\
  (sensor_type_ m = LASER ->
   raw_measurements_ m 0%nat = 2 -> raw_measurements_ m 1%nat = 3 ->
   x_ s' 0%nat = 2 /\ x_ s' 1%nat = 3) /\
  time_us_ s' = timestamp_ m /\
  is_initialized_ s' = true /\
  (x_ s' 2%nat = 3 /\ x_ s' 3%nat = 0 /\ x_ s' 4%nat = 0.1) /\
  (forall i j, i <> j -> P_ s' i j = 0) /\
  (P_ s' 2%nat 2%nat = 1 /\ P_ s' 3%nat 3%nat = PI * PI / 64 /\
   P_ s' 4%nat 4%nat = PI * PI / 640) /\
  Xsig_pred_ s' = Xsig_pred_ s /\
  (forall llt' inverse', ProcessMeasurement llt' inverse' s m = s').
Proof.
  intros Hinit s'.
  assert (Hs' : s' = ProcessMeasurement_init s m).
  { subst s'. unfold ProcessMeasurement. rewrite Hinit. reflexivity. }
  rewrite Hs'. clear Hs' s'.
  split; [| split; [| split; [| split; [| split; [| split;
    [| split; [| split]]]]]]].
  - intros Htag H0 H1 H2.
    destruct (ProcessMeasurement_init_radar s m Htag) as [Hx Hy].
    rewrite Hx, Hy, H0, H1, cos_0, sin_0. split; lra.
  - intros Htag H0 H1.
    destruct (ProcessMeasurement_init_laser s m Htag) as [Hx Hy].
    rewrite Hx, Hy, H0, H1. split; reflexivity.
  - reflexivity.
  - reflexivity.
  - unfold ProcessMeasurement_init.
    destruct (Z.eqb _ RADAR); [| destruct (Z.eqb _ LASER)]; cbn;
      repeat split; lra.
  - intros i j Hij.
    assert (Hid : Identity i j = 0).
    { unfold Identity. destruct (Nat.eqb_spec i j); [contradiction |].
      reflexivity. }
    assert (Hoff : forall r c, r = c -> Nat.eqb i r && Nat.eqb j c = false).
    { intros r c ->. destruct (Nat.eqb_spec i c), (Nat.eqb_spec j c);
        try reflexivity. congruence. }
    unfold ProcessMeasurement_init.
    destruct (Z.eqb _ RADAR); [| destruct (Z.eqb _ LASER)];
      cbn [P_ set_P_ set_x_ set_NIS_radar_ set_NIS_laser_ set_time_us_
           set_is_initialized_]; unfold mset;
      rewrite ?Hoff by reflexivity; exact Hid.
  - unfold ProcessMeasurement_init.
    destruct (Z.eqb _ RADAR); [| destruct (Z.eqb _ LASER)]; cbn;
      unfold M_PI; repeat split; lra.
  - unfold ProcessMeasurement_init.
    destruct (Z.eqb _ RADAR); [reflexivity |].
    destruct (Z.eqb _ LASER); reflexivity.
  - intros llt' inverse'. unfold ProcessMeasurement.
    rewrite Hinit. reflexivity.
Qed.

Lemma first_measurement_initializes_witness :
  (x_ (ProcessMeasurement Eigen_llt Eigen_inverse UKF_new radar_5_0_0) 0%nat
   = 5 /\
   x_ (ProcessMeasurement Eigen_llt Eigen_inverse UKF_new radar_5_0_0) 1%nat
   = 0) /\
  (x_ (ProcessMeasurement Eigen_llt Eigen_inverse UKF_new lidar_2_3) 0%nat
   = 2 /\
   x_ (ProcessMeasurement Eigen_llt Eigen_inverse UKF_new lidar_2_3) 1%nat
   = 3).
Proof.
  split.
  - apply (first_measurement_initializes Eigen_llt Eigen_inverse UKF_new
             radar_5_0_0); reflexivity.
  - apply (first_measurement_initializes Eigen_llt Eigen_inverse UKF_new
             lidar_2_3); reflexivity.
Defined.

(** ** Reading matrices after a write *)

Lemma mset_same (M : MatrixXd) (r c : nat) (a : R) : mset M r c a r c = a.
Proof. unfold mset. rewrite !Nat.eqb_refl. reflexivity. Qed.

Lemma mset_other_col (M : MatrixXd) (r c : nat) (a : R) (i j : nat) :
  j <> c -> mset M r c a i j = M i j.
Proof.
  intros Hj. unfold mset. destruct (Nat.eqb_spec j c); [contradiction |].
  rewrite andb_false_r. reflexivity.
Qed.

Lemma mset_other_row (M : MatrixXd) (r c : nat) (a : R) (i j : nat) :
  i <> r -> mset M r c a i j = M i j.
Proof.
  intros Hi. unfold mset. destruct (Nat.eqb_spec i r); [contradiction |].
  reflexivity.
Qed.

(** ** The sigma points of the prediction *)

Section PredictionFacts.

Variable llt : nat -> MatrixXd -> LLT.

(** Iteration [i] of the propagation loop writes column [i] only. *)
Lemma Prediction_sigma_body_other_col (X : MatrixXd) (dt : R) (i : nat)
  (A : MatrixXd) (r c : nat) :
  c <> i -> Prediction_sigma_body X dt i A r c = A r c.
Proof.
  intros Hc. unfold Prediction_sigma_body.
  destruct (Rgt_dec (fabs (X 4%nat i)) 0.001);
    rewrite !mset_other_col by exact Hc; reflexivity.
Qed.

(** What it writes into rows 0..4 does not depend on the old contents. *)
Lemma Prediction_sigma_body_col_indep (X : MatrixXd) (dt : R) (i : nat)
  (A B : MatrixXd) (r : nat) :
  (r < 5)%nat ->
  Prediction_sigma_body X dt i A r i = Prediction_sigma_body X dt i B r i.
Proof.
  intros Hr. unfold Prediction_sigma_body.
  destruct (Rgt_dec (fabs (X 4%nat i)) 0.001);
    do 5 (destruct r as [| r];
          [ repeat first [ rewrite mset_same
                         | rewrite mset_other_row by discriminate ];
            reflexivity | ]);
    lia.
Qed.

Lemma Prediction_sigma_loop_lookup (X : MatrixXd) (dt : R) (N : nat)
  (A : MatrixXd) (r i : nat) :
  (i < N)%nat -> (r < 5)%nat ->
  for_loop 0 N (Prediction_sigma_body X dt) A r i
  = Prediction_sigma_body X dt i A r i.
Proof.
  intros Hi Hr. induction N as [| N IH]; [lia |].
  rewrite for_loop_last by lia.
  destruct (Nat.eq_dec i N) as [-> | Hne].
  - apply Prediction_sigma_body_col_indep. exact Hr.
  - rewrite Prediction_sigma_body_other_col by exact Hne.
    apply IH. lia.
Qed.

(** The five coefficients that iteration [i] writes. *)
Lemma Prediction_sigma_body_values (X : MatrixXd) (dt : R) (i : nat)
  (A : MatrixXd) :
  let p_x := X 0%nat i in
  let p_y := X 1%nat i in
  let v := X 2%nat i in
  let yaw := X 3%nat i in
  let yawd := X 4%nat i in
  let nu_a := X 5%nat i in
  let nu_yawdd := X 6%nat i in
  let Xp := Prediction_sigma_body X dt i A in
  (fabs yawd > 0.001 ->
   Xp 0%nat i
   = p_x + v / yawd * (sin (yaw + yawd * dt) - sin yaw)
     + 0.5 * nu_a * dt * dt * cos yaw /\
   Xp 1%nat i
   = p_y + v / yawd * (cos yaw - cos (yaw + yawd * dt))
     + 0.5 * nu_a * dt * dt * sin yaw) /\
  (fabs yawd <= 0.001 ->
   Xp 0%nat i
   = p_x + v * dt * cos yaw + 0.5 * nu_a * dt * dt * cos yaw /\
   Xp 1%nat i
   = p_y + v * dt * sin yaw + 0.5 * nu_a * dt * dt * sin yaw) /\
  Xp 2%nat i = v + nu_a * dt /\
  Xp 3%nat i = yaw + yawd * dt + 0.5 * nu_yawdd * dt * dt /\
  Xp 4%nat i = yawd + nu_yawdd * dt.
Proof.
  cbv zeta. unfold Prediction_sigma_body.
  destruct (Rgt_dec (fabs (X 4%nat i)) 0.001) as [Hgt | Hle];
    repeat split; intros;
    repeat first [ rewrite mset_same
                 | rewrite mset_other_row by discriminate ];
    try reflexivity; lra.
Qed.

(** C8: in the propagation of sigma point i, when the magnitude of the
    heading rate is at most 0.001 the predicted position is the
    straight-line formula px + v*dt*cos(yaw), py + v*dt*sin(yaw) plus the
    noise terms 0.5*nu_a*dt*dt*cos(yaw), 0.5*nu_a*dt*dt*sin(yaw); when it
    exceeds 0.001 the position is the turning formula with the sines and
    cosines of yaw + yawd*dt and yaw, plus the same noise terms. *)
Theorem motion_model_position (s : UKF) (dt : R) (i : nat) :
  (i < 2 * n_aug_ s + 1)%nat ->
  let X := Prediction_Xsig_aug llt s in
  let Xp := Xsig_pred_ (Prediction llt s dt) in
  let p_x := X 0%nat i in
  let p_y := X 1%nat i in
  let v := X 2%nat i in
  let yaw := X 3%nat i in
  let yawd := X 4%nat i in
  let nu_a := X 5%nat i in
  (fabs yawd <= 0.001 ->
   Xp 0%nat i
   = p_x + v * dt * cos yaw + 0.5 * nu_a * dt * dt * cos yaw /\
   Xp 1%nat i
   = p_y + v * dt * sin yaw + 0.5 * nu_a * dt * dt * sin yaw) /\
  (fabs yawd > 0.001 ->
   Xp 0%nat i
   = p_x + v / yawd * (sin (yaw + yawd * dt) - sin yaw)
     + 0.5 * nu_a * dt * dt * cos yaw /\
   Xp 1%nat i
   = p_y + v / yawd * (cos yaw - cos (yaw + yawd * dt))
     + 0.5 * nu_a * dt * dt * sin yaw).
Proof.
  intros Hi. cbv zeta.
  destruct (Prediction_frame llt s dt) as [_ HX]. rewrite HX.
  rewrite !(Prediction_sigma_loop_lookup _ _ _ _ _ _ Hi) by lia.
  destruct (Prediction_sigma_body_values (Prediction_Xsig_aug llt s) dt i
              (Xsig_pred_ s)) as (Hturn & Hline & _).
  split; assumption.
Qed.

End PredictionFacts.

Lemma motion_model_position_witness :
  let X := Prediction_Xsig_aug Eigen_llt tracking in
  let Xp := Xsig_pred_ (Prediction Eigen_llt tracking 1) in
  (fabs (X 4%nat 0%nat) <= 0.001 ->
   Xp 0%nat 0%nat
   = X 0%nat 0%nat + X 2%nat 0%nat * 1 * cos (X 3%nat 0%nat)
     + 0.5 * X 5%nat 0%nat * 1 * 1 * cos (X 3%nat 0%nat) /\
   Xp 1%nat 0%nat
   = X 1%nat 0%nat + X 2%nat 0%nat * 1 * sin (X 3%nat 0%nat)
     + 0.5 * X 5%nat 0%nat * 1 * 1 * sin (X 3%nat 0%nat)) /\
  (fabs (X 4%nat 0%nat) > 0.001 ->
   Xp 0%nat 0%nat
   = X 0%nat 0%nat
     + X 2%nat 0%nat / X 4%nat 0%nat
       * (sin (X 3%nat 0%nat + X 4%nat 0%nat * 1) - sin (X 3%nat 0%nat))
     + 0.5 * X 5%nat 0%nat * 1 * 1 * cos (X 3%nat 0%nat) /\
   Xp 1%nat 0%nat
   = X 1%nat 0%nat
     + X 2%nat 0%nat / X 4%nat 0%nat
       * (cos (X 3%nat 0%nat) - cos (X 3%nat 0%nat + X 4%nat 0%nat * 1))
     + 0.5 * X 5%nat 0%nat * 1 * 1 * sin (X 3%nat 0%nat)).
Proof.
  apply (motion_model_position Eigen_llt tracking 1 0).
  simpl. lia.
Defined.

(** ** The radar measurement transform *)

Lemma UpdateRadar_Zsig_body_other_col (Xp : MatrixXd) (i : nat)
  (Z : MatrixXd) (r c : nat) :
  c <> i -> UpdateRadar_Zsig_body Xp i Z r c = Z r c.
Proof.
  intros Hc. unfold UpdateRadar_Zsig_body.
  destruct (Rlt_dec _ 0.001);
    rewrite !mset_other_col by exact Hc; reflexivity.
Qed.

(** The three coefficients that iteration [i] writes. *)
Lemma UpdateRadar_Zsig_body_values (Xp : MatrixXd) (i : nat) (Z : MatrixXd) :
  let p_x := Xp 0%nat i in
  let p_y := Xp 1%nat i in
  let v := Xp 2%nat i in
  let yaw := Xp 3%nat i in
  let rho := sqrt (p_x * p_x + p_y * p_y) in
  let Z' := UpdateRadar_Zsig_body Xp i Z in
  Z' 0%nat i = (if Rlt_dec rho 0.001 then 0.001 else rho) /\
  Z' 1%nat i = (if Rlt_dec rho 0.001 then 0.0 else atan2 p_y p_x) /\
  Z' 2%nat i = (p_x * (cos yaw * v) + p_y * (sin yaw * v)) / Z' 0%nat i.
Proof.
  cbv zeta. unfold UpdateRadar_Zsig_body. rewrite mset_same.
  destruct (Rlt_dec _ 0.001);
    repeat split;
    repeat first [ rewrite mset_same
                 | rewrite mset_other_row by discriminate ];
    reflexivity.
Qed.

Lemma UpdateRadar_Zsig_body_col_indep (Xp : MatrixXd) (i : nat)
  (A B : MatrixXd) (r : nat) :
  (r < 3)%nat ->
  UpdateRadar_Zsig_body Xp i A r i = UpdateRadar_Zsig_body Xp i B r i.
Proof.
  intros Hr.
  destruct (UpdateRadar_Zsig_body_values Xp i A) as (A0 & A1 & A2).
  destruct (UpdateRadar_Zsig_body_values Xp i B) as (B0 & B1 & B2).
  destruct r as [| [| [| r]]]; [| | | lia].
  - rewrite A0, B0. reflexivity.
  - rewrite A1, B1. reflexivity.
  - rewrite A2, B2, A0, B0. reflexivity.
Qed.

Lemma UpdateRadar_Zsig_loop_lookup (Xp : MatrixXd) (N : nat) (Z : MatrixXd)
  (r i : nat) :
  (i < N)%nat -> (r < 3)%nat ->
  for_loop 0 N (UpdateRadar_Zsig_body Xp) Z r i
  = UpdateRadar_Zsig_body Xp i Z r i.
Proof.
  intros Hi Hr. induction N as [| N IH]; [lia |].
  rewrite for_loop_last by lia.
  destruct (Nat.eq_dec i N) as [-> | Hne].
  - apply UpdateRadar_Zsig_body_col_indep. exact Hr.
  - rewrite UpdateRadar_Zsig_body_other_col by exact Hne.
    apply IH. lia.
Qed.

(** C9: in the radar transform of predicted sigma point i, a computed
    range sqrt(px*px + py*py) below 0.001 is replaced by 0.001 and the
    bearing of that point is set to 0; otherwise range and bearing are the
    computed range and atan2(py, px).  In both cases the range-rate is the
    quotient by the stored range, which is at least 0.001. *)
Theorem radar_range_floor (s : UKF) (i : nat) :
  (i < 2 * n_aug_ s + 1)%nat ->
  let p_x := Xsig_pred_ s 0%nat i in
  let p_y := Xsig_pred_ s 1%nat i in
  let v := Xsig_pred_ s 2%nat i in
  let yaw := Xsig_pred_ s 3%nat i in
  let rho := sqrt (p_x * p_x + p_y * p_y) in
  let Zsig := UpdateRadar_Zsig s in
  (rho < 0.001 -> Zsig 0%nat i = 0.001 /\ Zsig 1%nat i = 0) /\
  (~ rho < 0.001 -> Zsig 0%nat i = rho /\ Zsig 1%nat i = atan2 p_y p_x) /\
  0.001 <= Zsig 0%nat i /\
  Zsig 2%nat i = (p_x * (cos yaw * v) + p_y * (sin yaw * v)) / Zsig 0%nat i.
Proof.
  intros Hi. cbv zeta. unfold UpdateRadar_Zsig.
  rewrite !(UpdateRadar_Zsig_loop_lookup _ _ _ _ _ Hi) by lia.
  destruct (UpdateRadar_Zsig_body_values (Xsig_pred_ s) i MatrixXd_new)
    as (H0 & H1 & H2).
  cbv zeta in H0, H1, H2. rewrite H2, H0, H1.
  destruct (Rlt_dec _ 0.001) as [Hlt | Hge].
  - repeat split; try lra; intros; try contradiction; try lra.
  - repeat split; try lra; intros; try contradiction; try lra.
Qed.

Lemma radar_range_floor_witness :
  0.001
  <= UpdateRadar_Zsig (predicted Eigen_llt tracking radar_next) 0%nat 0%nat.
Proof.
  apply (radar_range_floor (predicted Eigen_llt tracking radar_next) 0).
  lia.
Defined.

(** ** A step after initialisation *)

Section StepFacts.

Variable llt : nat -> MatrixXd -> LLT.
Variable inverse : nat -> MatrixXd -> MatrixXd.

Lemma ProcessMeasurement_tracking (s : UKF) (m : MeasurementPackage) :
  is_initialized_ s = true ->
  ProcessMeasurement llt inverse s m
  = if Z.eqb (sensor_type_ m) RADAR then UpdateRadar inverse (predicted llt s m) m
    else if Z.eqb (sensor_type_ m) LASER then
           UpdateLidar inverse (predicted llt s m) m
         else predicted llt s m.
Proof.
  intros Hinit. unfold ProcessMeasurement. rewrite Hinit. reflexivity.
Qed.

Lemma predicted_frame (s : UKF) (m : MeasurementPackage) :
  is_initialized_ (predicted llt s m) = is_initialized_ s /\
  use_laser_ (predicted llt s m) = use_laser_ s /\
  use_radar_ (predicted llt s m) = use_radar_ s /\
  NIS_radar_ (predicted llt s m) = NIS_radar_ s /\
  NIS_laser_ (predicted llt s m) = NIS_laser_ s.
Proof.
  unfold predicted.
  destruct (Prediction_frame llt (set_time_us_ (timestamp_ m) s)
              (elapsed s m)) as [Hf _].
  unfold same_but_estimate in Hf. simpl in Hf. tauto.
Qed.

Lemma ProcessMeasurement_stays_initialized (s : UKF)
  (m : MeasurementPackage) :
  is_initialized_ s = true ->
  is_initialized_ (ProcessMeasurement llt inverse s m) = true.
Proof.
  intros Hinit. rewrite ProcessMeasurement_tracking by exact Hinit.
  destruct (predicted_frame s m) as (Hi & _).
  destruct (Z.eqb _ RADAR).
  - destruct (UpdateRadar_frame inverse (predicted llt s m) m) as (H & _).
    congruence.
  - destruct (Z.eqb _ LASER); [| congruence].
    destruct (UpdateLidar_frame inverse (predicted llt s m) m) as (H & _).
    congruence.
Qed.

Lemma lidar_step_keeps_NIS_radar (s : UKF) (m : MeasurementPackage) :
  is_initialized_ s = true -> sensor_type_ m = LASER ->
  NIS_radar_ (ProcessMeasurement llt inverse s m) = NIS_radar_ s.
Proof.
  intros Hinit Htag. rewrite ProcessMeasurement_tracking by exact Hinit.
  rewrite Htag. cbn [Z.eqb LASER RADAR].
  destruct (UpdateLidar_frame inverse (predicted llt s m) m)
    as (_ & _ & _ & _ & H).
  destruct (predicted_frame s m) as (_ & _ & _ & Hr & _). congruence.
Qed.

Lemma radar_step_keeps_NIS_laser (s : UKF) (m : MeasurementPackage) :
  is_initialized_ s = true -> sensor_type_ m = RADAR ->
  NIS_laser_ (ProcessMeasurement llt inverse s m) = NIS_laser_ s.
Proof.
  intros Hinit Htag. rewrite ProcessMeasurement_tracking by exact Hinit.
  rewrite Htag. cbn [Z.eqb RADAR Pos.eqb].
  destruct (UpdateRadar_frame inverse (predicted llt s m) m)
    as (_ & _ & _ & _ & H).
  destruct (predicted_frame s m) as (_ & _ & _ & _ & Hl). congruence.
Qed.

(** C10: after initialisation, a call of ProcessMeasurement with a
    lidar-tagged package leaves the radar NIS as it was, and a call with a
    radar-tagged package leaves the lidar NIS as it was; so over any run
    of packages of one sensor the diagnostic of the other sensor keeps
    the value it had before the run. *)
Theorem other_sensor_NIS_unchanged (s : UKF) (ms : list MeasurementPackage) :
  is_initialized_ s = true ->
  (Forall (fun m => sensor_type_ m = LASER) ms ->
   NIS_radar_ (process_all llt inverse ms s) = NIS_radar_ s) /\
  (Forall (fun m => sensor_type_ m = RADAR) ms ->
   NIS_laser_ (process_all llt inverse ms s) = NIS_laser_ s).
Proof.
  unfold process_all. revert s.
  induction ms as [| m ms IH]; intros s Hinit.
  - split; reflexivity.
  - pose proof (ProcessMeasurement_stays_initialized s m Hinit) as Hinit'.
    destruct (IH _ Hinit') as [IHl IHr].
    split; intros Hall; inversion Hall as [| ? ? Hm Hms]; subst; simpl.
    + rewrite IHl by exact Hms.
      apply lidar_step_keeps_NIS_radar; assumption.
    + rewrite IHr by exact Hms.
      apply radar_step_keeps_NIS_laser; assumption.
Qed.

(** With its sensor switched off, an update function leaves the estimate
    alone and sets the diagnostic to 0. *)
Lemma UpdateLidar_disabled (s : UKF) (m : MeasurementPackage) :
  use_laser_ s = false ->
  UpdateLidar inverse s m = set_NIS_laser_ 0.0 s.
Proof. intros H. unfold UpdateLidar. rewrite H. reflexivity. Qed.

Lemma UpdateRadar_disabled (s : UKF) (m : MeasurementPackage) :
  use_radar_ s = false ->
  UpdateRadar inverse s m = set_NIS_radar_ 0.0 s.
Proof. intros H. unfold UpdateRadar. rewrite H. reflexivity. Qed.

(** C1 (amended): after initialisation, a call of ProcessMeasurement with
    a package of a sensor whose enable flag is off still advances the
    timestamp and runs the prediction over the elapsed time; the update
    function then changes nothing of the estimate.  State vector and
    covariance after the call are those of the prediction step, and the
    NIS of that sensor is exactly 0. *)
Theorem disabled_sensor_step (s : UKF) (m : MeasurementPackage) :
  is_initialized_ s = true ->
  (sensor_type_ m = LASER -> use_laser_ s = false ->
   ProcessMeasurement llt inverse s m = set_NIS_laser_ 0.0 (predicted llt s m) /\
   x_ (ProcessMeasurement llt inverse s m) = x_ (predicted llt s m) /\
   P_ (ProcessMeasurement llt inverse s m) = P_ (predicted llt s m) /\
   NIS_laser_ (ProcessMeasurement llt inverse s m) = 0) /\
  (sensor_type_ m = RADAR -> use_radar_ s = false ->
   ProcessMeasurement llt inverse s m = set_NIS_radar_ 0.0 (predicted llt s m) /\
   x_ (ProcessMeasurement llt inverse s m) = x_ (predicted llt s m) /\
   P_ (ProcessMeasurement llt inverse s m) = P_ (predicted llt s m) /\
   NIS_radar_ (ProcessMeasurement llt inverse s m) = 0).
Proof.
  intros Hinit.
  destruct (predicted_frame s m) as (_ & Hl & Hr & _).
  split; intros Htag Hoff;
    rewrite ProcessMeasurement_tracking by exact Hinit;
    rewrite Htag.
  - cbn [Z.eqb LASER RADAR].
    rewrite UpdateLidar_disabled by congruence.
    repeat split; try reflexivity. simpl. lra.
  - cbn [Z.eqb RADAR Pos.eqb].
    rewrite UpdateRadar_disabled by congruence.
    repeat split; try reflexivity. simpl. lra.
Qed.

(** C2 (amended): a package whose tag is neither enumerator is not
    rejected.  The call returns like any other.  On the first call the
    estimator is seeded with the default state, takes the timestamp and is
    marked initialised; afterwards the timestamp is advanced and the
    prediction runs, and the dispatch then does nothing: no update runs
    and both NIS diagnostics keep their values. *)
Theorem unknown_sensor_step (s : UKF) (m : MeasurementPackage) :
  sensor_type_ m <> RADAR -> sensor_type_ m <> LASER ->
  ~ reports_error (call_ProcessMeasurement llt inverse s m) /\
  (is_initialized_ s = true ->
   ProcessMeasurement llt inverse s m = predicted llt s m) /\
  (is_initialized_ s = false ->
   x_ (ProcessMeasurement llt inverse s m)
   = vec_of_list [0.0; 0.0; 3.0; 0.0; 0.1] /\
   time_us_ (ProcessMeasurement llt inverse s m) = timestamp_ m /\
   is_initialized_ (ProcessMeasurement llt inverse s m) = true) /\
  NIS_radar_ (ProcessMeasurement llt inverse s m) = NIS_radar_ s /\
  NIS_laser_ (ProcessMeasurement llt inverse s m) = NIS_laser_ s.
Proof.
  intros Hr Hl.
  apply Z.eqb_neq in Hr. apply Z.eqb_neq in Hl.
  split; [| split; [| split]].
  - intros [what Hwhat]. discriminate Hwhat.
  - intros Hinit. rewrite ProcessMeasurement_tracking by exact Hinit.
    rewrite Hr, Hl. reflexivity.
  - intros Hinit. unfold ProcessMeasurement, ProcessMeasurement_init.
    rewrite Hinit, Hr, Hl. repeat split.
  - destruct (is_initialized_ s) eqn:Hinit.
    + rewrite ProcessMeasurement_tracking by exact Hinit.
      rewrite Hr, Hl.
      destruct (predicted_frame s m) as (_ & _ & _ & Hnr & Hnl).
      split; assumption.
    + unfold ProcessMeasurement, ProcessMeasurement_init.
      rewrite Hinit, Hr, Hl. split; reflexivity.
Qed.

End StepFacts.

(** ** The predicted mean *)

Section MeanFacts.

Variable llt : nat -> MatrixXd -> LLT.

Lemma mean_loop (N : nat) (s1 : UKF) :
  let body :=
    fun i s =>
      set_x_ (vadd (x_ s) (vscale (weights_ s i) (col (Xsig_pred_ s) i))) s
  in
  weights_ (for_loop 0 N body s1) = weights_ s1 /\
  Xsig_pred_ (for_loop 0 N body s1) = Xsig_pred_ s1 /\
  forall r,
    x_ (for_loop 0 N body s1) r
    = x_ s1 r + sum_upto N (fun i => weights_ s1 i * Xsig_pred_ s1 r i).
Proof.
  intros body. induction N as [| N (Hw & HX & Hx)].
  - rewrite for_loop_empty by lia. simpl. repeat split. intros r. lra.
  - rewrite for_loop_last by lia. subst body. cbn beta.
    cbn [weights_ Xsig_pred_ x_ set_x_].
    repeat split; try assumption.
    intros r. unfold vadd, vscale, col in *. rewrite Hx, Hw, HX. simpl. lra.
Qed.

(** The predicted mean is the weighted sum of the predicted sigma
    points. *)
Lemma Prediction_mean (s : UKF) (dt : R) (r : nat) :
  x_ (Prediction llt s dt) r
  = sum_upto (2 * n_aug_ s + 1)
      (fun i => weights_ s i * Xsig_pred_ (Prediction llt s dt) r i).
Proof.
  destruct (Prediction_frame llt s dt) as [_ HX]. rewrite HX.
  unfold Prediction.
  set (X := for_loop 0 (2 * n_aug_ s + 1) _ (Xsig_pred_ s)).
  set (s1 := set_x_ (vfill 0.0) (set_Xsig_pred_ X s)).
  set (s2 := for_loop 0 (2 * n_aug_ s1 + 1) _ s1).
  set (s3 := set_P_ (mfill 0.0) s2).
  match goal with
  | |- x_ ?t r = _ => assert (H3 : x_ t = x_ s2)
  end.
  { apply for_loop_invariant; [reflexivity |].
    intros i a _ Ha. exact Ha. }
  rewrite H3. subst s2.
  destruct (mean_loop (2 * n_aug_ s1 + 1) s1) as (_ & _ & Hx).
  rewrite Hx. subst s1. simpl. unfold vfill. lra.
Qed.

(** The augmented sigma points: the mean in column 0, the mean plus the
    scaled columns of the factor in columns 1..n_aug, the mean minus them
    in columns n_aug+1..2*n_aug. *)
Lemma Xsig_aug_loop_lookup (n N : nat) (x_aug : VectorXd) (L : MatrixXd)
  (c0 : R) (X0 : MatrixXd) (r c : nat) :
  (N <= n)%nat ->
  for_loop 0 N
    (fun i Xsig_aug =>
       let Xsig_aug :=
         set_col Xsig_aug (i + 1) (vadd x_aug (vscale c0 (col L i))) in
       set_col Xsig_aug (i + 1 + n) (vsub x_aug (vscale c0 (col L i))))
    X0 r c
  = if Nat.leb 1 c && Nat.leb c N then x_aug r + c0 * L r (c - 1)%nat
    else if Nat.leb (n + 1) c && Nat.leb c (n + N) then
           x_aug r - c0 * L r (c - 1 - n)%nat
         else X0 r c.
Proof.
  intros HN.
  match goal with
  | |- for_loop 0 N ?b X0 r c = _ => set (body := b)
  end.
  induction N as [| N IH].
  - rewrite for_loop_empty by lia.
    destruct (Nat.leb_spec 1 c), (Nat.leb_spec c 0),
      (Nat.leb_spec (n + 1) c), (Nat.leb_spec c (n + 0)); simpl;
      try reflexivity; lia.
  - rewrite for_loop_last by lia. unfold body at 1. cbv zeta.
    unfold set_col at 1 2. rewrite IH by lia.
    unfold vadd, vsub, vscale, col.
    destruct (Nat.eqb_spec c (N + 1 + n)), (Nat.eqb_spec c (N + 1)),
      (Nat.leb_spec 1 c), (Nat.leb_spec c N), (Nat.leb_spec c (S N)),
      (Nat.leb_spec (n + 1) c), (Nat.leb_spec c (n + N)),
      (Nat.leb_spec c (n + S N)); simpl; try reflexivity; try lia;
      subst; repeat f_equal; lia.
Qed.

Lemma Prediction_Xsig_aug_lookup (s : UKF) (r c : nat) :
  Prediction_Xsig_aug llt s r c
  = let x_aug := Prediction_x_aug s in
    let L := matrixL (llt (n_aug_ s) (Prediction_P_aug s)) in
    let c0 := sqrt (lambda_ s + INR (n_aug_ s)) in
    if Nat.leb 1 c && Nat.leb c (n_aug_ s) then x_aug r + c0 * L r (c - 1)%nat
    else if Nat.leb (n_aug_ s + 1) c && Nat.leb c (n_aug_ s + n_aug_ s)
         then x_aug r - c0 * L r (c - 1 - n_aug_ s)%nat
         else if Nat.eqb c 0 then x_aug r else 0.
Proof.
  unfold Prediction_Xsig_aug. cbv zeta.
  rewrite Xsig_aug_loop_lookup by lia.
  unfold set_col, MatrixXd_new. reflexivity.
Qed.

(** The heading row of the predicted sigma points. *)
Lemma Xsig_pred_heading (s : UKF) (dt : R) (i : nat) :
  (i < 2 * n_aug_ s + 1)%nat ->
  let X := Prediction_Xsig_aug llt s in
  Xsig_pred_ (Prediction llt s dt) 3%nat i
  = X 3%nat i + X 4%nat i * dt + 0.5 * X 6%nat i * dt * dt.
Proof.
  intros Hi. cbv zeta.
  destruct (Prediction_frame llt s dt) as [_ HX]. rewrite HX.
  rewrite (Prediction_sigma_loop_lookup _ _ _ _ _ _ Hi) by lia.
  destruct (Prediction_sigma_body_values (Prediction_Xsig_aug llt s) dt i
              (Xsig_pred_ s)) as (_ & _ & _ & H & _).
  exact H.
Qed.

End MeanFacts.

(** ** The predicted heading *)

Section HeadingMean.

Variable llt : nat -> MatrixXd -> LLT.

Lemma Prediction_x_aug_values (s : UKF) :
  n_x_ s = 5%nat ->
  Prediction_x_aug s 3%nat = x_ s 3%nat /\
  Prediction_x_aug s 4%nat = x_ s 4%nat /\
  Prediction_x_aug s 6%nat = 0.
Proof.
  intros Hn. unfold Prediction_x_aug, vset, set_head. rewrite Hn.
  repeat split.
Qed.

(** With the dimensions and weights of the constructor, the prediction
    advances the heading by heading rate times elapsed time, whatever the
    factor of the covariance is: the contributions of the paired sigma
    points cancel. *)
Lemma predicted_heading_mean (s : UKF) (dt : R) :
  n_x_ s = 5%nat -> n_aug_ s = 7%nat -> lambda_ s + 7 = 3 ->
  weights_ s = init_weights 7 (lambda_ s) ->
  x_ (Prediction llt s dt) 3%nat = x_ s 3%nat + x_ s 4%nat * dt.
Proof.
  intros Hx Haug Hlam Hw.
  rewrite Prediction_mean.
  rewrite (sum_upto_ext _ _
    (fun i => weights_ s i *
       (Prediction_Xsig_aug llt s 3%nat i
        + Prediction_Xsig_aug llt s 4%nat i * dt
        + 0.5 * Prediction_Xsig_aug llt s 6%nat i * dt * dt)))
    by (intros i Hi; rewrite Xsig_pred_heading by exact Hi; reflexivity).
  destruct (Prediction_x_aug_values s Hx) as (H3 & H4 & H6).
  rewrite Hw, Haug.
  cbn [sum_upto Nat.mul Nat.add].
  rewrite !init_weights_lookup, !Prediction_Xsig_aug_lookup.
  rewrite Haug. cbv zeta.
  cbn [Nat.leb Nat.eqb Nat.ltb andb Nat.add Nat.sub Nat.mul].
  rewrite H3, H4, H6.
  assert (HI : INR 7 = 7) by (simpl; lra). rewrite HI.
  replace (7 + lambda_ s) with 3 by lra.
  replace (lambda_ s + 7) with 3 by lra.
  replace (lambda_ s) with (- 4) by lra.
  replace 0.5 with (1 / 2) by lra.
  generalize (sqrt 3) (matrixL (llt 7 (Prediction_P_aug s))).
  intros c0 L. field.
Qed.

End HeadingMean.


(** ** Steps from concrete states *)

Section ConcreteSteps.

Variable llt : nat -> MatrixXd -> LLT.
Variable inverse : nat -> MatrixXd -> MatrixXd.

(** With lidar switched off, a lidar step of an estimator with the
    constructor's dimensions and weights advances the heading by heading
    rate times elapsed time. *)
Lemma disabled_lidar_step_heading (s : UKF) (m : MeasurementPackage) :
  is_initialized_ s = true -> use_laser_ s = false ->
  sensor_type_ m = LASER ->
  n_x_ s = 5%nat -> n_aug_ s = 7%nat -> lambda_ s + 7 = 3 ->
  weights_ s = init_weights 7 (lambda_ s) ->
  x_ (ProcessMeasurement llt inverse s m) 3%nat
  = x_ s 3%nat + x_ s 4%nat * elapsed s m.
Proof.
  intros Hinit Hoff Htag Hnx Hna Hlam Hw.
  rewrite ProcessMeasurement_tracking by exact Hinit.
  rewrite Htag. cbn [Z.eqb LASER RADAR].
  rewrite UpdateLidar_disabled.
  - cbn [x_ set_NIS_laser_]. unfold predicted.
    rewrite predicted_heading_mean by assumption. reflexivity.
  - destruct (predicted_frame llt s m) as (_ & Hl & _). congruence.
Qed.

(** After initialisation a package with an unknown tag only runs the
    prediction. *)
Lemma unknown_tag_step (s : UKF) (m : MeasurementPackage) :
  is_initialized_ s = true ->
  Z.eqb (sensor_type_ m) RADAR = false ->
  Z.eqb (sensor_type_ m) LASER = false ->
  ProcessMeasurement llt inverse s m = predicted llt s m.
Proof.
  intros Hinit Hr Hl. rewrite ProcessMeasurement_tracking by exact Hinit.
  rewrite Hr, Hl. reflexivity.
Qed.

End ConcreteSteps.

Lemma x_set_use_laser_ (b : bool) (s : UKF) : x_ (set_use_laser_ b s) = x_ s.
Proof. reflexivity. Qed.

Lemma P_set_P_ (M : MatrixXd) (s : UKF) : P_ (set_P_ M s) = M.
Proof. reflexivity. Qed.

Lemma tracking_x : x_ tracking 3%nat = 0 /\ x_ tracking 4%nat = 0.1.
Proof.
  unfold tracking, ProcessMeasurement, ProcessMeasurement_init.
  cbn [is_initialized_ UKF_new negb sensor_type_ lidar_2_3 Z.eqb LASER RADAR].
  cbn [x_ set_x_ set_P_ set_NIS_laser_ set_time_us_ set_is_initialized_].
  unfold vset, vec_of_list. cbn [Nat.eqb nth]. split; lra.
Qed.

Lemma tracking_laser_off_x :
  x_ tracking_laser_off 3%nat = 0 /\ x_ tracking_laser_off 4%nat = 0.1.
Proof.
  unfold tracking_laser_off. rewrite x_set_use_laser_. exact tracking_x.
Qed.

Lemma tracking_laser_off_lambda : lambda_ tracking_laser_off + 7 = 3.
Proof.
  assert (H : lambda_ tracking_laser_off = 3.0 - INR 7) by reflexivity.
  rewrite H. simpl INR. lra.
Qed.

Lemma elapsed_one_second (s : UKF) (m : MeasurementPackage) :
  time_us_ s = 0%Z -> timestamp_ m = 1000000%Z -> elapsed s m = 1.
Proof.
  intros Hs Hm. unfold elapsed. rewrite Hs, Hm.
  change (1000000 - 0)%Z with 1000000%Z. lra.
Qed.

(** C1, as stated, fails: with lidar processing switched off, a lidar
    package one second after initialisation still runs the prediction,
    which turns the heading from 0 to 0.1 (heading rate 0.1 for one
    second), so the state vector is not the one before the call. *)
Lemma disabled_lidar_step_moves_state :
  is_initialized_ tracking_laser_off = true /\
  use_laser_ tracking_laser_off = false /\
  sensor_type_ lidar_next = LASER /\
  x_ tracking_laser_off 3%nat = 0 /\
  x_ (ProcessMeasurement Eigen_llt Eigen_inverse tracking_laser_off
        lidar_next) 3%nat = 0.1 /\
  x_ (ProcessMeasurement Eigen_llt Eigen_inverse tracking_laser_off
        lidar_next) <> x_ tracking_laser_off.
Proof.
  destruct tracking_laser_off_x as [Hx3 Hx4].
  assert (Hafter :
    x_ (ProcessMeasurement Eigen_llt Eigen_inverse tracking_laser_off
          lidar_next) 3%nat = 0.1).
  { rewrite disabled_lidar_step_heading;
      [ | reflexivity | reflexivity | reflexivity | reflexivity
        | reflexivity | exact tracking_laser_off_lambda | reflexivity ].
    rewrite elapsed_one_second by reflexivity.
    rewrite Hx3, Hx4. lra. }
  split; [reflexivity |]. split; [reflexivity |]. split; [reflexivity |].
  split; [exact Hx3 |]. split; [exact Hafter |].
  intros Heq. apply (f_equal (fun v : VectorXd => v 3%nat)) in Heq.
  cbv beta in Heq. rewrite Hafter, Hx3 in Heq. clear - Heq. lra.
Qed.

Lemma disabled_sensor_step_witness :
  NIS_laser_ (ProcessMeasurement Eigen_llt Eigen_inverse tracking_laser_off
                lidar_next) = 0.
Proof.
  destruct (disabled_sensor_step Eigen_llt Eigen_inverse tracking_laser_off
              lidar_next) as [Hlaser _]; [reflexivity |].
  destruct Hlaser as (_ & _ & _ & H); [reflexivity | reflexivity |].
  exact H.
Defined.

Lemma other_sensor_NIS_unchanged_witness :
  NIS_radar_ (process_all Eigen_llt Eigen_inverse [lidar_next] tracking)
  = NIS_radar_ tracking.
Proof.
  apply (other_sensor_NIS_unchanged Eigen_llt Eigen_inverse tracking
           [lidar_next]).
  - reflexivity.
  - constructor; [reflexivity | constructor].
Defined.

(** C2, as stated, fails: after initialisation a package with the tag 2
    is not rejected; the call returns, having run the prediction and no
    update. *)
Lemma unknown_tag_not_rejected :
  sensor_type_ unknown_next <> LASER /\
  sensor_type_ unknown_next <> RADAR /\
  is_initialized_ tracking = true /\
  call_ProcessMeasurement Eigen_llt Eigen_inverse tracking unknown_next
  = Returns (predicted Eigen_llt tracking unknown_next) /\
  ~ reports_error
      (call_ProcessMeasurement Eigen_llt Eigen_inverse tracking unknown_next).
Proof.
  split; [discriminate |]. split; [discriminate |].
  split; [reflexivity |]. split.
  - unfold call_ProcessMeasurement.
    rewrite unknown_tag_step by reflexivity. reflexivity.
  - intros [what Hwhat]. discriminate Hwhat.
Qed.

Lemma unknown_sensor_step_witness :
  ProcessMeasurement Eigen_llt Eigen_inverse tracking unknown_next
  = predicted Eigen_llt tracking unknown_next.
Proof.
  apply (unknown_sensor_step Eigen_llt Eigen_inverse tracking unknown_next);
    [discriminate | discriminate | reflexivity].
Defined.

(** ** The reference decompositions on small matrices *)

Lemma sqrt_4 : sqrt 4 = 2.
Proof. replace 4 with (2 * 2) by lra. apply sqrt_square. lra. Qed.

Lemma llt_column_success (n k : nat) (mat : MatrixXd) (x : R) :
  x = mat k k - sum_upto k (fun j => mat k j * mat k j) -> 0 < x ->
  llt_column n k (mat, Success)
  = (for_loop (k + 1) n
       (fun i mat0 =>
          mset mat0 i k
            ((mat0 i k - sum_upto k (fun j => mat0 i j * mat0 k j)) / sqrt x))
       (mset mat k k (sqrt x)), Success).
Proof.
  intros Hx Hpos. unfold llt_column. rewrite <- Hx.
  destruct (Rle_dec x 0); [lra | reflexivity].
Qed.

(** [[4 2] [2 5]] factors as L * L' with L = [[2 0] [1 2]]. *)
Example Eigen_llt_2x2 :
  let L := matrixL (Eigen_llt 2 (mat_of_rows [[4; 2]; [2; 5]])) in
  L 0%nat 0%nat = 2 /\ L 0%nat 1%nat = 0 /\
  L 1%nat 0%nat = 1 /\ L 1%nat 1%nat = 2 /\
  info (Eigen_llt 2 (mat_of_rows [[4; 2]; [2; 5]])) = Success.
Proof.
  cbv zeta. unfold Eigen_llt.
  rewrite for_loop_first by lia.
  rewrite (llt_column_success 2 0 _ 4) by (cbn; lra).
  rewrite sqrt_4.
  rewrite for_loop_first by lia. rewrite for_loop_empty by lia.
  rewrite for_loop_first by lia. rewrite (for_loop_empty 2 2) by lia.
  rewrite (llt_column_success 2 1 _ 4); [| cbn; lra | lra].
  rewrite sqrt_4. rewrite for_loop_empty by lia.
  cbn. repeat split; lra.
Qed.

(** The inverse of [[2 1] [1 1]] is [[1 -1] [-1 2]]. *)
Example Eigen_inverse_2x2 :
  let B := Eigen_inverse 2 (mat_of_rows [[2; 1]; [1; 1]]) in
  B 0%nat 0%nat = 1 /\ B 0%nat 1%nat = -1 /\
  B 1%nat 0%nat = -1 /\ B 1%nat 1%nat = 2.
Proof.
  cbv zeta. unfold Eigen_inverse. cbn. repeat split; field.
Qed.

(** ** The factorisation in the prediction *)

(** A matrix with a pivot that is not positive is not positive
    definite. *)
Lemma not_positive_definite_pivot (n : nat) (A : MatrixXd) :
  (0 < n)%nat -> A 0%nat 0%nat <= 0 -> ~ positive_definite n A.
Proof.
  intros Hn H00 Hpd.
  set (e0 := vset (vfill 0) 0 1).
  assert (He : exists i, (i < n)%nat /\ e0 i <> 0).
  { exists 0%nat. split; [exact Hn |]. unfold e0, vset. simpl. lra. }
  specialize (Hpd e0 He). unfold quadratic_form in Hpd.
  rewrite (sum_upto_single n 0) in Hpd; [| exact Hn |].
  - rewrite (sum_upto_single n 0) in Hpd; [| exact Hn |].
    + unfold e0, vset in Hpd. simpl in Hpd. lra.
    + intros i _ Hi. unfold e0, vset, vfill.
      destruct (Nat.eqb_spec i 0); [contradiction | lra].
  - intros j _ Hj. unfold e0 at 2. unfold vset, vfill.
    destruct (Nat.eqb_spec j 0); [contradiction | lra].
Qed.

(** The reference factorisation reports the failure when the first pivot
    is not positive. *)
Lemma Eigen_llt_first_pivot (n : nat) (A : MatrixXd) :
  (0 < n)%nat -> A 0%nat 0%nat <= 0 ->
  info (Eigen_llt n A) = NumericalIssue.
Proof.
  intros Hn H00. unfold Eigen_llt.
  rewrite for_loop_first by exact Hn.
  assert (Hstep : llt_column n 0 (A, Success) = (A, NumericalIssue)).
  { unfold llt_column. cbn [sum_upto].
    destruct (Rle_dec (A 0%nat 0%nat - 0) 0); [reflexivity | lra]. }
  rewrite Hstep.
  assert (Hinv : snd (for_loop 1 n (llt_column n) (A, NumericalIssue))
                 = NumericalIssue).
  { apply for_loop_invariant; [reflexivity |].
    intros i [mat status] _ Hs. simpl in Hs. subst status. reflexivity. }
  destruct (for_loop 1 n (llt_column n) (A, NumericalIssue)) as [mat status].
  exact Hinv.
Qed.

Lemma Prediction_P_aug_corner (s : UKF) :
  n_x_ s = 5%nat -> Prediction_P_aug s 0%nat 0%nat = P_ s 0%nat 0%nat.
Proof.
  intros Hn. unfold Prediction_P_aug, mset, set_topLeftCorner.
  rewrite Hn. reflexivity.
Qed.

Section FactorFacts.

Variables llt llt' : nat -> MatrixXd -> LLT.

Lemma Prediction_Xsig_aug_factor (s : UKF) :
  (forall n A, matrixL (llt n A) = matrixL (llt' n A)) ->
  Prediction_Xsig_aug llt s = Prediction_Xsig_aug llt' s.
Proof.
  intros HL. unfold Prediction_Xsig_aug. rewrite HL. reflexivity.
Qed.

(** C3 (amended): the prediction does not test the factorisation.  It
    never reads the status of llt(): two factorisations that return the
    same factor give the same prediction, whatever their status.  The
    call returns normally for every state and elapsed time, also when the
    augmented covariance is not positive definite, and the sigma points
    are built from the factor as it is returned: column 0 is the augmented
    mean, column i+1 is the mean plus sqrt(lambda + n_aug) times column i
    of the factor, and column i+1+n_aug is the mean minus it. *)
Theorem prediction_uses_factor_unchecked (s : UKF) (dt : R) :
  (forall n A, matrixL (llt n A) = matrixL (llt' n A)) ->
  Prediction llt s dt = Prediction llt' s dt /\
  call_Prediction llt s dt = Returns (Prediction llt s dt) /\
  ~ reports_error (call_Prediction llt s dt) /\
  (forall r i, (i < n_aug_ s)%nat ->
     let x_aug := Prediction_x_aug s in
     let L := matrixL (llt (n_aug_ s) (Prediction_P_aug s)) in
     let c0 := sqrt (lambda_ s + INR (n_aug_ s)) in
     Prediction_Xsig_aug llt s r 0%nat = x_aug r /\
     Prediction_Xsig_aug llt s r (i + 1)%nat = x_aug r + c0 * L r i /\
     Prediction_Xsig_aug llt s r (i + 1 + n_aug_ s)%nat
     = x_aug r - c0 * L r i).
Proof.
  intros HL. split; [| split; [| split]].
  - unfold Prediction.
    rewrite (Prediction_Xsig_aug_factor s HL). reflexivity.
  - reflexivity.
  - intros [what Hwhat]. discriminate Hwhat.
  - intros r i Hi. cbv zeta.
    rewrite !Prediction_Xsig_aug_lookup. cbv zeta.
    split; [| split].
    + destruct (Nat.leb_spec (n_aug_ s + 1) 0); [lia |]. reflexivity.
    + destruct (Nat.leb_spec 1 (i + 1)); [| lia].
      destruct (Nat.leb_spec (i + 1) (n_aug_ s)); [| lia]. simpl.
      replace (i + 1 - 1)%nat with i by lia. reflexivity.
    + destruct (Nat.leb_spec (i + 1 + n_aug_ s) (n_aug_ s)); [lia |].
      rewrite andb_false_r.
      destruct (Nat.leb_spec (n_aug_ s + 1) (i + 1 + n_aug_ s)); [| lia].
      destruct (Nat.leb_spec (i + 1 + n_aug_ s) (n_aug_ s + n_aug_ s));
        [| lia].
      simpl.
      replace (i + 1 + n_aug_ s - 1 - n_aug_ s)%nat with i by lia.
      reflexivity.
Qed.

End FactorFacts.

Lemma prediction_uses_factor_unchecked_witness :
  Prediction Eigen_llt tracking_P_zero 1
  = Prediction Eigen_llt_unchecked tracking_P_zero 1.
Proof.
  apply (prediction_uses_factor_unchecked Eigen_llt Eigen_llt_unchecked
           tracking_P_zero 1).
  intros n A. reflexivity.
Defined.

(** C3, as stated, fails: with the covariance set to zero the augmented
    covariance is not positive definite and the factorisation reports a
    numerical issue, yet the prediction returns like any other call and
    reports nothing. *)
Lemma failed_factorisation_not_reported :
  ~ positive_definite (n_aug_ tracking_P_zero)
      (Prediction_P_aug tracking_P_zero) /\
  info (Eigen_llt (n_aug_ tracking_P_zero) (Prediction_P_aug tracking_P_zero))
  = NumericalIssue /\
  call_Prediction Eigen_llt tracking_P_zero 1
  = Returns (Prediction Eigen_llt tracking_P_zero 1) /\
  ~ reports_error (call_Prediction Eigen_llt tracking_P_zero 1).
Proof.
  assert (Hn : n_aug_ tracking_P_zero = 7%nat) by reflexivity.
  assert (H00 : Prediction_P_aug tracking_P_zero 0%nat 0%nat <= 0).
  { rewrite Prediction_P_aug_corner by reflexivity.
    unfold tracking_P_zero. rewrite P_set_P_. unfold mfill. lra. }
  rewrite Hn. split; [| split; [| split]].
  - apply not_positive_definite_pivot; [lia | exact H00].
  - apply Eigen_llt_first_pivot; [lia | exact H00].
  - reflexivity.
  - intros [what Hwhat]. discriminate Hwhat.
Qed.

(** ** The inverse in the updates *)

(** The lidar innovation covariance is the position block of the
    covariance plus the measurement noise. *)
Lemma UpdateLidar_S_block (s : UKF) :
  n_x_ s = 5%nat ->
  UpdateLidar_S s 0%nat 0%nat
  = P_ s 0%nat 0%nat + std_laspx_ s * std_laspx_ s /\
  UpdateLidar_S s 0%nat 1%nat = P_ s 0%nat 1%nat /\
  UpdateLidar_S s 1%nat 0%nat = P_ s 1%nat 0%nat /\
  UpdateLidar_S s 1%nat 1%nat
  = P_ s 1%nat 1%nat + std_laspy_ s * std_laspy_ s.
Proof.
  intros Hn.
  unfold UpdateLidar_S, UpdateLidar_H, madd, mmul, transpose. rewrite Hn.
  cbn [sum_upto]. unfold mset, mfill. cbn [Nat.eqb andb].
  repeat split; lra.
Qed.

(** A 2 x 2 matrix with a zero first row is not invertible. *)
Lemma not_invertible_zero_row (A : MatrixXd) :
  A 0%nat 0%nat = 0 -> A 0%nat 1%nat = 0 -> ~ invertible 2 A.
Proof.
  intros H00 H01 [B HB].
  specialize (HB 0%nat 0%nat ltac:(lia) ltac:(lia)).
  unfold mmul, Identity in HB. cbn [sum_upto Nat.eqb] in HB.
  rewrite H00, H01 in HB. lra.
Qed.

Section InverseFacts.

Variable inverse : nat -> MatrixXd -> MatrixXd.

(** C4 (amended): neither update step tests the innovation covariance for
    invertibility, and neither reports anything to the caller.  With the
    sensor enabled, UpdateLidar returns with x_ = x_ + K*z_diff,
    P_ = P_ - K*H*P_ and NIS = z_diff' * Si * z_diff, where
    K = (H*P_)' * Si and Si is S.inverse() as the library returns it,
    whether S is invertible or not; UpdateRadar does the same with
    K = Tc * Si and P_ = P_ - Tc*K'. *)
Theorem updates_use_inverse_unchecked (s : UKF) (m : MeasurementPackage) :
  ~ reports_error (call_UpdateLidar inverse s m) /\
  ~ reports_error (call_UpdateRadar inverse s m) /\
  (use_laser_ s = true ->
   let Si := inverse 2 (UpdateLidar_S s) in
   let HP := mmul (n_x_ s) UpdateLidar_H (P_ s) in
   let K := mmul 2 (transpose HP) Si in
   let z_diff :=
     vsub (raw_measurements_ m) (mvmul (n_x_ s) UpdateLidar_H (x_ s)) in
   x_ (UpdateLidar inverse s m) = vadd (x_ s) (mvmul 2 K z_diff) /\
   P_ (UpdateLidar inverse s m) = msub (P_ s) (mmul 2 K HP) /\
   NIS_laser_ (UpdateLidar inverse s m) = quadratic_form 2 z_diff Si z_diff) /\
  (use_radar_ s = true ->
   let Si := inverse 3 (UpdateRadar_S s) in
   let K := mmul 3 (UpdateRadar_Tc s) Si in
   let z_diff := vsub (raw_measurements_ m) (UpdateRadar_z_pred s) in
   let z_diff := vset z_diff 1 (normalize_angle (z_diff 1%nat)) in
   x_ (UpdateRadar inverse s m) = vadd (x_ s) (mvmul 3 K z_diff) /\
   P_ (UpdateRadar inverse s m)
   = msub (P_ s) (mmul 3 (UpdateRadar_Tc s) (transpose K)) /\
   NIS_radar_ (UpdateRadar inverse s m) = quadratic_form 3 z_diff Si z_diff).
Proof.
  split; [| split; [| split]].
  - intros [what Hwhat]. discriminate Hwhat.
  - intros [what Hwhat]. discriminate Hwhat.
  - intros Hon. cbv zeta. unfold UpdateLidar. rewrite Hon.
    repeat split.
  - intros Hon. cbv zeta. unfold UpdateRadar. rewrite Hon.
    repeat split.
Qed.

End InverseFacts.

Lemma updates_use_inverse_unchecked_witness :
  NIS_laser_ (UpdateLidar Eigen_inverse tracking_S_zero lidar_next)
  = quadratic_form 2
      (vsub (raw_measurements_ lidar_next)
         (mvmul (n_x_ tracking_S_zero) UpdateLidar_H (x_ tracking_S_zero)))
      (Eigen_inverse 2 (UpdateLidar_S tracking_S_zero))
      (vsub (raw_measurements_ lidar_next)
         (mvmul (n_x_ tracking_S_zero) UpdateLidar_H (x_ tracking_S_zero))).
Proof.
  destruct (updates_use_inverse_unchecked Eigen_inverse tracking_S_zero
              lidar_next) as (_ & _ & Hlaser & _).
  destruct Hlaser as (_ & _ & H); [reflexivity |].
  exact H.
Defined.

(** C4, as stated, fails: with a covariance whose position block cancels
    the lidar noise the innovation covariance is the zero matrix, which
    is not invertible, yet the lidar update returns like any other call
    and reports nothing. *)
Lemma singular_innovation_not_reported :
  use_laser_ tracking_S_zero = true /\
  ~ invertible 2 (UpdateLidar_S tracking_S_zero) /\
  call_UpdateLidar Eigen_inverse tracking_S_zero lidar_next
  = Returns (UpdateLidar Eigen_inverse tracking_S_zero lidar_next) /\
  ~ reports_error (call_UpdateLidar Eigen_inverse tracking_S_zero lidar_next).
Proof.
  split; [reflexivity |]. split; [| split].
  - destruct (UpdateLidar_S_block tracking_S_zero) as (H00 & H01 & _);
      [reflexivity |].
    assert (Hstd : std_laspx_ tracking_S_zero = 0.15) by reflexivity.
    apply not_invertible_zero_row.
    + rewrite H00, Hstd. unfold tracking_S_zero. rewrite P_set_P_.
      unfold mscale, Identity. cbn [Nat.eqb]. lra.
    + rewrite H01. unfold tracking_S_zero. rewrite P_set_P_.
      unfold mscale, Identity. cbn [Nat.eqb]. lra.
  - reflexivity.
  - intros [what Hwhat]. discriminate Hwhat.
Qed.

(** * Further properties of the member functions *)

(** ** What every call leaves behind *)

Section CallFacts.

Variable llt : nat -> MatrixXd -> LLT.
Variable inverse : nat -> MatrixXd -> MatrixXd.

Lemma same_configuration_refl (s : UKF) : same_configuration s s.
Proof. unfold same_configuration. repeat split. Qed.

Lemma same_configuration_trans (s1 s2 s3 : UKF) :
  same_configuration s1 s2 -> same_configuration s2 s3 ->
  same_configuration s1 s3.
Proof.
  unfold same_configuration. intros H12 H23.
  repeat match goal with H : _ /\ _ |- _ => destruct H end.
  repeat split; congruence.
Qed.

Lemma Prediction_configuration (s : UKF) (dt : R) :
  same_configuration s (Prediction llt s dt).
Proof.
  destruct (Prediction_frame llt s dt) as [Hf _].
  unfold same_but_estimate in Hf. unfold same_configuration. tauto.
Qed.

Lemma UpdateLidar_configuration (s : UKF) (m : MeasurementPackage) :
  same_configuration s (UpdateLidar inverse s m) /\
  is_initialized_ (UpdateLidar inverse s m) = is_initialized_ s /\
  time_us_ (UpdateLidar inverse s m) = time_us_ s.
Proof.
  unfold UpdateLidar, same_configuration.
  destruct (use_laser_ s) eqn:Hl; simpl; rewrite ?Hl; repeat split.
Qed.

Lemma UpdateRadar_configuration (s : UKF) (m : MeasurementPackage) :
  same_configuration s (UpdateRadar inverse s m) /\
  is_initialized_ (UpdateRadar inverse s m) = is_initialized_ s /\
  time_us_ (UpdateRadar inverse s m) = time_us_ s.
Proof.
  unfold UpdateRadar, same_configuration.
  destruct (use_radar_ s) eqn:Hr; simpl; rewrite ?Hr; repeat split.
Qed.

(** Assignments to the estimate, the diagnostics, the timestamp and the
    initialisation flag keep the configuration. *)
Lemma cfg_set_x_ (a : UKF) (v : VectorXd) (s : UKF) :
  same_configuration a s -> same_configuration a (set_x_ v s).
Proof. unfold same_configuration. simpl. tauto. Qed.

Lemma cfg_set_P_ (a : UKF) (M : MatrixXd) (s : UKF) :
  same_configuration a s -> same_configuration a (set_P_ M s).
Proof. unfold same_configuration. simpl. tauto. Qed.

Lemma cfg_set_NIS_radar_ (a : UKF) (c : R) (s : UKF) :
  same_configuration a s -> same_configuration a (set_NIS_radar_ c s).
Proof. unfold same_configuration. simpl. tauto. Qed.

Lemma cfg_set_NIS_laser_ (a : UKF) (c : R) (s : UKF) :
  same_configuration a s -> same_configuration a (set_NIS_laser_ c s).
Proof. unfold same_configuration. simpl. tauto. Qed.

Lemma cfg_set_time_us_ (a : UKF) (t : Z) (s : UKF) :
  same_configuration a s -> same_configuration a (set_time_us_ t s).
Proof. unfold same_configuration. simpl. tauto. Qed.

Lemma cfg_set_is_initialized_ (a : UKF) (b : bool) (s : UKF) :
  same_configuration a s -> same_configuration a (set_is_initialized_ b s).
Proof. unfold same_configuration. simpl. tauto. Qed.

(** One statement of a straight-line body: a local variable is named,
    a branch is entered, an assignment is peeled off. *)
Ltac cfg_step :=
  lazymatch goal with
  | |- same_configuration ?a (let x := ?v in @?b x) =>
      lazymatch type of v with
      | UKF =>
          let H := fresh "Hc" in
          assert (H : same_configuration a v);
          [ | revert H; generalize v; intros x H; cbv beta ]
      | _ => change (same_configuration a (b v)); cbv beta
      end
  | |- same_configuration ?a (if ?c then _ else _) => destruct c
  | |- same_configuration _ (set_x_ _ _) => apply cfg_set_x_
  | |- same_configuration _ (set_P_ _ _) => apply cfg_set_P_
  | |- same_configuration _ (set_NIS_radar_ _ _) => apply cfg_set_NIS_radar_
  | |- same_configuration _ (set_NIS_laser_ _ _) => apply cfg_set_NIS_laser_
  | |- same_configuration _ (set_time_us_ _ _) => apply cfg_set_time_us_
  | |- same_configuration _ (set_is_initialized_ _ _) =>
      apply cfg_set_is_initialized_
  | |- same_configuration ?a ?a => apply same_configuration_refl
  | |- same_configuration _ _ => assumption
  end.

Lemma ProcessMeasurement_init_configuration (s : UKF)
  (m : MeasurementPackage) :
  same_configuration s (ProcessMeasurement_init s m) /\
  is_initialized_ (ProcessMeasurement_init s m) = true /\
  time_us_ (ProcessMeasurement_init s m) = timestamp_ m.
Proof.
  split; [| split; reflexivity].
  unfold ProcessMeasurement_init. repeat cfg_step.
Qed.

Lemma predicted_configuration (s : UKF) (m : MeasurementPackage) :
  same_configuration s (predicted llt s m) /\
  is_initialized_ (predicted llt s m) = is_initialized_ s /\
  time_us_ (predicted llt s m) = timestamp_ m.
Proof.
  unfold predicted.
  destruct (Prediction_frame llt (set_time_us_ (timestamp_ m) s)
              (elapsed s m)) as [Hf _].
  unfold same_but_estimate in Hf. simpl in Hf.
  unfold same_configuration. tauto.
Qed.

Lemma ProcessMeasurement_configuration (s : UKF) (m : MeasurementPackage) :
  same_configuration s (ProcessMeasurement llt inverse s m) /\
  is_initialized_ (ProcessMeasurement llt inverse s m) = true /\
  time_us_ (ProcessMeasurement llt inverse s m) = timestamp_ m.
Proof.
  destruct (is_initialized_ s) eqn:Hinit.
  - rewrite ProcessMeasurement_tracking by exact Hinit.
    destruct (predicted_configuration s m) as (Hc & Hi & Ht).
    destruct (Z.eqb _ RADAR).
    + destruct (UpdateRadar_configuration (predicted llt s m) m)
        as (Hc' & Hi' & Ht').
      split; [eapply same_configuration_trans; eassumption |].
      split; congruence.
    + destruct (Z.eqb _ LASER).
      * destruct (UpdateLidar_configuration (predicted llt s m) m)
          as (Hc' & Hi' & Ht').
        split; [eapply same_configuration_trans; eassumption |].
        split; congruence.
      * split; [exact Hc |]. split; congruence.
  - unfold ProcessMeasurement. rewrite Hinit. cbn [negb].
    apply ProcessMeasurement_init_configuration.
Qed.

Lemma process_all_snoc (ms : list MeasurementPackage)
  (m : MeasurementPackage) (s : UKF) :
  process_all llt inverse (ms ++ [m]) s
  = ProcessMeasurement llt inverse (process_all llt inverse ms s) m.
Proof. unfold process_all. rewrite fold_left_app. reflexivity. Qed.

Lemma process_all_configuration (ms : list MeasurementPackage) (s : UKF) :
  same_configuration s (process_all llt inverse ms s).
Proof.
  induction ms as [| m ms IH] using rev_ind.
  - apply same_configuration_refl.
  - rewrite process_all_snoc.
    eapply same_configuration_trans; [exact IH |].
    apply ProcessMeasurement_configuration.
Qed.

(** X1: whatever packages an estimator has processed, its configuration
    (enable flags, noise parameters, dimensions, spreading parameter and
    weights) is the one it started with; and after a stream that ends
    with package m, whatever the tags, the estimator is initialised and
    its timestamp is that of m. *)
Theorem stream_keeps_configuration (ms : list MeasurementPackage)
  (m : MeasurementPackage) (s : UKF) :
  same_configuration s (process_all llt inverse ms s) /\
  is_initialized_ (process_all llt inverse (ms ++ [m]) s) = true /\
  time_us_ (process_all llt inverse (ms ++ [m]) s) = timestamp_ m.
Proof.
  split; [apply process_all_configuration |].
  rewrite process_all_snoc.
  destruct (ProcessMeasurement_configuration
              (process_all llt inverse ms s) m) as (_ & Hi & Ht).
  split; assumption.
Qed.


End CallFacts.

(** ** The predicted mean and covariance *)

Lemma constructed_same_configuration (s s' : UKF) :
  same_configuration s s' -> constructed s -> constructed s'.
Proof.
  unfold same_configuration, constructed.
  intros Hc (Hx & Ha & Hl & Hw).
  repeat match goal with H : _ /\ _ |- _ => destruct H end.
  repeat split; congruence.
Qed.

Lemma UKF_new_constructed : constructed UKF_new.
Proof.
  unfold constructed. cbn [n_x_ n_aug_ lambda_ weights_ UKF_new].
  repeat split. simpl INR. lra.
Qed.

Lemma outer_scaled_symmetric (w : R) (d : VectorXd) :
  symmetric (outer (vscale w d) d).
Proof. intros i j. unfold outer, vscale. ring. Qed.

Lemma madd_symmetric (A B : MatrixXd) :
  symmetric A -> symmetric B -> symmetric (madd A B).
Proof. intros HA HB i j. unfold madd. rewrite (HA i j), (HB i j). ring. Qed.

Section PredictedMoments.

Variable llt : nat -> MatrixXd -> LLT.

(** One iteration of the covariance loop (lines 220-224) keeps P_
    symmetric. *)
Lemma covariance_loop_step_symmetric (i : nat) (a : UKF) :
  symmetric (P_ a) ->
  symmetric
    (P_ (let x_diff := vsub (col (Xsig_pred_ a) i) (x_ a) in
         let x_diff := vset x_diff 3 (normalize_angle (x_diff 3%nat)) in
         set_P_ (madd (P_ a) (outer (vscale (weights_ a i) x_diff) x_diff))
           a)).
Proof.
  intros Ha. cbn [P_ set_P_].
  apply madd_symmetric; [exact Ha | apply outer_scaled_symmetric].
Qed.

(** X3: the covariance that the prediction leaves in P_ is symmetric,
    for every state, elapsed time and factorisation: it is accumulated
    from outer products of a difference vector with itself. *)
Theorem Prediction_covariance_symmetric (s : UKF) (dt : R) :
  symmetric (P_ (Prediction llt s dt)).
Proof.
  unfold Prediction.
  apply (for_loop_invariant (fun a => symmetric (P_ a))).
  - cbn [P_ set_P_]. intros i j. reflexivity.
  - intros i a _ Ha. apply covariance_loop_step_symmetric. exact Ha.
Qed.

(** The same for the prediction part of a step. *)
Lemma predicted_symmetric (s : UKF) (m : MeasurementPackage) :
  symmetric (P_ (predicted llt s m)).
Proof.
  unfold predicted, Prediction.
  apply (for_loop_invariant (fun a => symmetric (P_ a))).
  - cbn [P_ set_P_]. intros i j. reflexivity.
  - intros i a _ Ha. apply covariance_loop_step_symmetric. exact Ha.
Qed.

(** With the constructor's weights, a weighted sum over the 15 augmented
    sigma points of a linear combination of three rows is that
    combination of the augmented mean: the paired points cancel. *)
Lemma sigma_points_weighted_sum (s : UKF) (a b c : R) (r1 r2 r3 : nat) :
  constructed s ->
  sum_upto 15
    (fun i =>
       weights_ s i *
       (a * Prediction_Xsig_aug llt s r1 i
        + b * Prediction_Xsig_aug llt s r2 i
        + c * Prediction_Xsig_aug llt s r3 i))
  = a * Prediction_x_aug s r1 + b * Prediction_x_aug s r2
    + c * Prediction_x_aug s r3.
Proof.
  intros (Hx & Haug & Hlam & Hw).
  rewrite Hw.
  cbn [sum_upto].
  rewrite !init_weights_lookup, !Prediction_Xsig_aug_lookup.
  rewrite Haug. cbv zeta.
  cbn [Nat.leb Nat.eqb Nat.ltb andb Nat.add Nat.sub Nat.mul].
  assert (HI : INR 7 = 7) by (simpl; lra). rewrite HI.
  replace (7 + lambda_ s) with 3 by lra.
  replace (lambda_ s + 7) with 3 by lra.
  replace (lambda_ s) with (- 4) by lra.
  replace 0.5 with (1 / 2) by lra.
  generalize (sqrt 3) (matrixL (llt 7 (Prediction_P_aug s)))
    (Prediction_x_aug s).
  intros c0 L x. field.
Qed.

Lemma Prediction_x_aug_rows (s : UKF) :
  n_x_ s = 5%nat ->
  (forall r, (r < 5)%nat -> Prediction_x_aug s r = x_ s r) /\
  Prediction_x_aug s 5%nat = 0 /\ Prediction_x_aug s 6%nat = 0.
Proof.
  intros Hn. unfold Prediction_x_aug, vset, set_head. rewrite Hn.
  split; [| split; reflexivity].
  intros r Hr.
  do 5 (destruct r as [| r]; [reflexivity |]). lia.
Qed.

(** The rows 2, 3 and 4 of the predicted sigma points. *)
Lemma Xsig_pred_rows (s : UKF) (dt : R) (i : nat) :
  n_aug_ s = 7%nat -> (i < 15)%nat ->
  Xsig_pred_ (Prediction llt s dt) 2%nat i
  = Prediction_Xsig_aug llt s 2%nat i
    + Prediction_Xsig_aug llt s 5%nat i * dt /\
  Xsig_pred_ (Prediction llt s dt) 3%nat i
  = Prediction_Xsig_aug llt s 3%nat i
    + Prediction_Xsig_aug llt s 4%nat i * dt
    + 0.5 * Prediction_Xsig_aug llt s 6%nat i * dt * dt /\
  Xsig_pred_ (Prediction llt s dt) 4%nat i
  = Prediction_Xsig_aug llt s 4%nat i
    + Prediction_Xsig_aug llt s 6%nat i * dt.
Proof.
  intros Haug Hi.
  destruct (Prediction_frame llt s dt) as [_ HX]. rewrite HX, Haug.
  rewrite !(Prediction_sigma_loop_lookup _ _ (2 * 7 + 1)) by (simpl; lia).
  destruct (Prediction_sigma_body_values (Prediction_Xsig_aug llt s) dt i
              (Xsig_pred_ s)) as (_ & _ & H2 & H3 & H4).
  cbv zeta in H2, H3, H4. rewrite H2, H3, H4. repeat split.
Qed.

Lemma Prediction_mean_speed (s : UKF) (dt : R) :
  constructed s -> x_ (Prediction llt s dt) 2%nat = x_ s 2%nat.
Proof.
  intros Hc.
  assert (Haug : n_aug_ s = 7%nat) by (unfold constructed in Hc; tauto).
  assert (Hnx : n_x_ s = 5%nat) by (unfold constructed in Hc; tauto).
  destruct (Prediction_x_aug_rows s Hnx) as (Hrows & H5 & H6).
  rewrite Prediction_mean, Haug. change (2 * 7 + 1)%nat with 15%nat.
  rewrite (sum_upto_ext _ _
    (fun i => weights_ s i *
       (1 * Prediction_Xsig_aug llt s 2%nat i
        + dt * Prediction_Xsig_aug llt s 5%nat i
        + 0 * Prediction_Xsig_aug llt s 5%nat i))).
  - rewrite sigma_points_weighted_sum by exact Hc.
    rewrite H5, Hrows by lia. ring.
  - intros i Hi. destruct (Xsig_pred_rows s dt i Haug Hi) as (H2 & _).
    rewrite H2. ring.
Qed.

Lemma Prediction_mean_heading (s : UKF) (dt : R) :
  constructed s ->
  x_ (Prediction llt s dt) 3%nat = x_ s 3%nat + x_ s 4%nat * dt.
Proof.
  intros Hc.
  assert (Haug : n_aug_ s = 7%nat) by (unfold constructed in Hc; tauto).
  assert (Hnx : n_x_ s = 5%nat) by (unfold constructed in Hc; tauto).
  destruct (Prediction_x_aug_rows s Hnx) as (Hrows & H5 & H6).
  rewrite Prediction_mean, Haug. change (2 * 7 + 1)%nat with 15%nat.
  rewrite (sum_upto_ext _ _
    (fun i => weights_ s i *
       (1 * Prediction_Xsig_aug llt s 3%nat i
        + dt * Prediction_Xsig_aug llt s 4%nat i
        + (0.5 * dt * dt) * Prediction_Xsig_aug llt s 6%nat i))).
  - rewrite sigma_points_weighted_sum by exact Hc.
    rewrite H6, !Hrows by lia. ring.
  - intros i Hi. destruct (Xsig_pred_rows s dt i Haug Hi) as (_ & H3 & _).
    rewrite H3. ring.
Qed.

Lemma Prediction_mean_heading_rate (s : UKF) (dt : R) :
  constructed s -> x_ (Prediction llt s dt) 4%nat = x_ s 4%nat.
Proof.
  intros Hc.
  assert (Haug : n_aug_ s = 7%nat) by (unfold constructed in Hc; tauto).
  assert (Hnx : n_x_ s = 5%nat) by (unfold constructed in Hc; tauto).
  destruct (Prediction_x_aug_rows s Hnx) as (Hrows & H5 & H6).
  rewrite Prediction_mean, Haug. change (2 * 7 + 1)%nat with 15%nat.
  rewrite (sum_upto_ext _ _
    (fun i => weights_ s i *
       (1 * Prediction_Xsig_aug llt s 4%nat i
        + dt * Prediction_Xsig_aug llt s 6%nat i
        + 0 * Prediction_Xsig_aug llt s 6%nat i))).
  - rewrite sigma_points_weighted_sum by exact Hc.
    rewrite H6, Hrows by lia. ring.
  - intros i Hi. destruct (Xsig_pred_rows s dt i Haug Hi) as (_ & _ & H4).
    rewrite H4. ring.
Qed.

(** X4: with the constructor's dimensions and weights the prediction
    keeps the mean speed and the mean heading rate and advances the mean
    heading by heading rate times elapsed time, for every covariance and
    factorisation and for an elapsed time of either sign. *)
Theorem Prediction_mean_kinematics (s : UKF) (dt : R) :
  constructed s ->
  x_ (Prediction llt s dt) 2%nat = x_ s 2%nat /\
  x_ (Prediction llt s dt) 3%nat = x_ s 3%nat + x_ s 4%nat * dt /\
  x_ (Prediction llt s dt) 4%nat = x_ s 4%nat.
Proof.
  intros Hc. split; [| split].
  - apply Prediction_mean_speed. exact Hc.
  - apply Prediction_mean_heading. exact Hc.
  - apply Prediction_mean_heading_rate. exact Hc.
Qed.

(** X5: with the constructor's dimensions and weights a prediction over
    an elapsed time of zero returns the mean it started from, in all five
    coordinates, for every covariance and factorisation. *)
Theorem Prediction_zero_elapsed_mean (s : UKF) (r : nat) :
  constructed s -> (r < 5)%nat ->
  x_ (Prediction llt s 0) r = x_ s r.
Proof.
  intros Hc Hr.
  assert (Haug : n_aug_ s = 7%nat) by (unfold constructed in Hc; tauto).
  assert (Hnx : n_x_ s = 5%nat) by (unfold constructed in Hc; tauto).
  destruct (Prediction_x_aug_rows s Hnx) as (Hrows & _ & _).
  destruct (Prediction_frame llt s 0) as [_ HX].
  rewrite Prediction_mean, Haug. change (2 * 7 + 1)%nat with 15%nat.
  rewrite (sum_upto_ext _ _
    (fun i => weights_ s i *
       (1 * Prediction_Xsig_aug llt s r i
        + 0 * Prediction_Xsig_aug llt s r i
        + 0 * Prediction_Xsig_aug llt s r i))).
  - rewrite sigma_points_weighted_sum by exact Hc.
    rewrite Hrows by exact Hr. ring.
  - intros i Hi. rewrite HX, Haug.
    rewrite (Prediction_sigma_loop_lookup _ _ (2 * 7 + 1))
      by (simpl; lia).
    destruct (Prediction_sigma_body_values (Prediction_Xsig_aug llt s) 0 i
                (Xsig_pred_ s)) as (Hturn & Hline & H2 & H3 & H4).
    cbv zeta in Hturn, Hline, H2, H3, H4.
    assert (Hpos :
      Prediction_sigma_body (Prediction_Xsig_aug llt s) 0 i
        (Xsig_pred_ s) 0%nat i = Prediction_Xsig_aug llt s 0%nat i /\
      Prediction_sigma_body (Prediction_Xsig_aug llt s) 0 i
        (Xsig_pred_ s) 1%nat i = Prediction_Xsig_aug llt s 1%nat i).
    { destruct (Rgt_dec (fabs (Prediction_Xsig_aug llt s 4%nat i)) 0.001)
        as [Hgt | Hle].
      - destruct (Hturn Hgt) as [Hx Hy]. rewrite Hx, Hy.
        rewrite !Rmult_0_r, !Rplus_0_r. unfold Rdiv. split; ring.
      - destruct Hline as [Hx Hy]; [lra |]. rewrite Hx, Hy.
        split; ring. }
    destruct Hpos as [H0 H1].
    do 5 (destruct r as [| r];
          [ first [rewrite H0 | rewrite H1 | rewrite H2 | rewrite H3
                  | rewrite H4]; ring | ]).
    lia.
Qed.

End PredictedMoments.

Lemma tracking_constructed : constructed tracking.
Proof.
  apply (constructed_same_configuration UKF_new);
    [| exact UKF_new_constructed].
  apply ProcessMeasurement_configuration.
Qed.

Lemma Prediction_mean_kinematics_witness :
  x_ (Prediction Eigen_llt tracking 1) 3%nat
  = x_ tracking 3%nat + x_ tracking 4%nat * 1.
Proof.
  destruct (Prediction_mean_kinematics Eigen_llt tracking 1
              tracking_constructed) as (_ & H & _).
  exact H.
Defined.

Lemma Prediction_zero_elapsed_mean_witness :
  x_ (Prediction Eigen_llt tracking 0) 0%nat = x_ tracking 0%nat.
Proof.
  apply (Prediction_zero_elapsed_mean Eigen_llt tracking 0).
  - exact tracking_constructed.
  - lia.
Defined.

(** ** The updates *)


Lemma Identity_symmetric : symmetric Identity.
Proof. intros i j. unfold Identity. rewrite (Nat.eqb_sym i j). reflexivity. Qed.

Lemma mset_diag_symmetric (M : MatrixXd) (k : nat) (a : R) :
  symmetric M -> symmetric (mset M k k a).
Proof.
  intros HM i j. unfold mset.
  rewrite (andb_comm (Nat.eqb j k)), (HM i j). reflexivity.
Qed.

(** The cofactor inverse of a symmetric 2 x 2 or 3 x 3 block is
    symmetric. *)
Lemma Eigen_inverse_keeps_symmetry : inverse_keeps_symmetry Eigen_inverse.
Proof.
  intros A. split; intros HA i j Hi Hj.
  - assert (H01 : A 0%nat 1%nat = A 1%nat 0%nat) by (apply HA; lia).
    unfold Eigen_inverse.
    destruct i as [| [| i]]; [| | lia]; destruct j as [| [| j]]; try lia;
      try reflexivity; cbn; unfold minor; cbn;
      rewrite ?H01; unfold Rdiv; f_equal; ring.
  - assert (H01 : A 0%nat 1%nat = A 1%nat 0%nat) by (apply HA; lia).
    assert (H02 : A 0%nat 2%nat = A 2%nat 0%nat) by (apply HA; lia).
    assert (H12 : A 1%nat 2%nat = A 2%nat 1%nat) by (apply HA; lia).
    unfold Eigen_inverse.
    destruct i as [| [| [| i]]]; [| | | lia];
      destruct j as [| [| [| j]]]; try lia; try reflexivity;
      cbn; unfold minor; cbn;
      rewrite ?H01, ?H02, ?H12; unfold Rdiv; f_equal; ring.
Qed.

Lemma sym_set_P_Identity (s : UKF) :
  symmetric_covariance (set_P_ Identity s).
Proof. exact Identity_symmetric. Qed.

Lemma sym_set_P_diag (s : UKF) (k : nat) (a : R) :
  symmetric_covariance s ->
  symmetric_covariance (set_P_ (mset (P_ s) k k a) s).
Proof. intros H. exact (mset_diag_symmetric (P_ s) k a H). Qed.

Lemma sym_set_x_ (v : VectorXd) (s : UKF) :
  symmetric_covariance s -> symmetric_covariance (set_x_ v s).
Proof. intros H. exact H. Qed.

Lemma sym_set_NIS_radar_ (c : R) (s : UKF) :
  symmetric_covariance s -> symmetric_covariance (set_NIS_radar_ c s).
Proof. intros H. exact H. Qed.

Lemma sym_set_NIS_laser_ (c : R) (s : UKF) :
  symmetric_covariance s -> symmetric_covariance (set_NIS_laser_ c s).
Proof. intros H. exact H. Qed.

Lemma sym_set_time_us_ (t : Z) (s : UKF) :
  symmetric_covariance s -> symmetric_covariance (set_time_us_ t s).
Proof. intros H. exact H. Qed.

Lemma sym_set_is_initialized_ (b : bool) (s : UKF) :
  symmetric_covariance s -> symmetric_covariance (set_is_initialized_ b s).
Proof. intros H. exact H. Qed.

(** One statement of the first-call body, for the symmetry of P_; a
    local variable whose covariance is not yet symmetric is inlined. *)
Ltac sym_step :=
  lazymatch goal with
  | |- symmetric_covariance (let x := ?v in @?b x) =>
      first
        [ lazymatch type of v with UKF => idtac end;
          let H := fresh "Hs" in
          assert (H : symmetric_covariance v) by (repeat sym_step);
          revert H; generalize v; intros x H; cbv beta
        | change (symmetric_covariance (b v)); cbv beta ]
  | |- symmetric_covariance (if ?c then _ else _) => destruct c
  | |- symmetric_covariance (set_P_ Identity _) => apply sym_set_P_Identity
  | |- symmetric_covariance (set_P_ (mset (P_ ?s) ?k ?k _) ?s) =>
      apply sym_set_P_diag
  | |- symmetric_covariance (set_x_ _ _) => apply sym_set_x_
  | |- symmetric_covariance (set_NIS_radar_ _ _) => apply sym_set_NIS_radar_
  | |- symmetric_covariance (set_NIS_laser_ _ _) => apply sym_set_NIS_laser_
  | |- symmetric_covariance (set_time_us_ _ _) => apply sym_set_time_us_
  | |- symmetric_covariance (set_is_initialized_ _ _) =>
      apply sym_set_is_initialized_
  | |- symmetric_covariance _ => assumption
  end.

(** The covariance seeded by the first call is symmetric. *)
Lemma ProcessMeasurement_init_symmetric (s : UKF) (m : MeasurementPackage) :
  symmetric (P_ (ProcessMeasurement_init s m)).
Proof.
  change (symmetric_covariance (ProcessMeasurement_init s m)).
  unfold ProcessMeasurement_init. repeat sym_step.
Qed.

Section UpdateFacts.

Variable llt : nat -> MatrixXd -> LLT.
Variable inverse : nat -> MatrixXd -> MatrixXd.

(** The lidar innovation is the measurement minus the position. *)
Lemma lidar_innovation (s : UKF) (m : MeasurementPackage) :
  n_x_ s = 5%nat ->
  let z := vsub (raw_measurements_ m) (mvmul (n_x_ s) UpdateLidar_H (x_ s)) in
  z 0%nat = raw_measurements_ m 0%nat - x_ s 0%nat /\
  z 1%nat = raw_measurements_ m 1%nat - x_ s 1%nat.
Proof.
  intros Hn. cbv zeta. unfold vsub, mvmul, UpdateLidar_H, mset, mfill.
  rewrite Hn. cbn [sum_upto Nat.eqb andb]. split; lra.
Qed.

(** H * P_ is the first two rows of P_. *)
Lemma lidar_HP (s : UKF) (k j : nat) :
  n_x_ s = 5%nat -> (k < 2)%nat ->
  mmul (n_x_ s) UpdateLidar_H (P_ s) k j = P_ s k j.
Proof.
  intros Hn Hk. unfold mmul, UpdateLidar_H, mset, mfill. rewrite Hn.
  destruct k as [| [| k]]; [| | lia]; cbn [sum_upto Nat.eqb andb]; lra.
Qed.

Lemma UpdateLidar_S_symmetric (s : UKF) :
  n_x_ s = 5%nat -> symmetric (P_ s) -> symmetric_block 2 (UpdateLidar_S s).
Proof.
  intros Hn HP i j Hi Hj.
  destruct (UpdateLidar_S_block s Hn) as (H00 & H01 & H10 & H11).
  destruct i as [| [| i]]; [| | lia]; destruct j as [| [| j]]; try lia;
    try reflexivity.
  - rewrite H01, H10. apply HP.
  - rewrite H01, H10. apply HP.
Qed.

Lemma UpdateLidar_symmetric (s : UKF) (m : MeasurementPackage) :
  n_x_ s = 5%nat -> symmetric (P_ s) ->
  symmetric_block 2 (inverse 2 (UpdateLidar_S s)) ->
  symmetric (P_ (UpdateLidar inverse s m)).
Proof.
  intros Hn HP HSi. unfold UpdateLidar.
  destruct (use_laser_ s); cbn [negb]; [| exact HP].
  cbn [P_ set_P_ set_x_ set_NIS_laser_].
  assert (H01 : inverse 2%nat (UpdateLidar_S s) 0%nat 1%nat
                = inverse 2%nat (UpdateLidar_S s) 1%nat 0%nat)
    by (apply HSi; lia).
  assert (HHP : forall k j, (k < 2)%nat ->
            mmul (n_x_ s) UpdateLidar_H (P_ s) k j = P_ s k j)
    by (intros; apply lidar_HP; assumption).
  revert H01 HHP.
  generalize (inverse 2%nat (UpdateLidar_S s))
    (mmul (n_x_ s) UpdateLidar_H (P_ s)).
  intros Si HP0 H01 HHP i j.
  unfold msub, mmul, transpose. cbn [sum_upto].
  rewrite !HHP by lia. rewrite H01, (HP i j). ring.
Qed.

Lemma UpdateRadar_S_symmetric (s : UKF) : symmetric (UpdateRadar_S s).
Proof.
  unfold UpdateRadar_S. cbv zeta.
  do 3 apply mset_diag_symmetric.
  apply (for_loop_invariant symmetric).
  - intros i j. reflexivity.
  - intros i S _ HS.
    apply madd_symmetric; [exact HS | apply outer_scaled_symmetric].
Qed.

Lemma UpdateRadar_symmetric (s : UKF) (m : MeasurementPackage) :
  symmetric (P_ s) ->
  symmetric_block 3 (inverse 3 (UpdateRadar_S s)) ->
  symmetric (P_ (UpdateRadar inverse s m)).
Proof.
  intros HP HSi. unfold UpdateRadar.
  destruct (use_radar_ s); cbn [negb]; [| exact HP].
  cbn [P_ set_P_ set_x_ set_NIS_radar_].
  assert (H01 : inverse 3%nat (UpdateRadar_S s) 0%nat 1%nat
                = inverse 3%nat (UpdateRadar_S s) 1%nat 0%nat)
    by (apply HSi; lia).
  assert (H02 : inverse 3%nat (UpdateRadar_S s) 0%nat 2%nat
                = inverse 3%nat (UpdateRadar_S s) 2%nat 0%nat)
    by (apply HSi; lia).
  assert (H12 : inverse 3%nat (UpdateRadar_S s) 1%nat 2%nat
                = inverse 3%nat (UpdateRadar_S s) 2%nat 1%nat)
    by (apply HSi; lia).
  revert H01 H02 H12.
  generalize (inverse 3%nat (UpdateRadar_S s)) (UpdateRadar_Tc s).
  intros Si Tc H01 H02 H12 i j.
  unfold msub, mmul, transpose. cbn [sum_upto].
  rewrite H01, H02, H12, (HP i j). ring.
Qed.

Lemma ProcessMeasurement_symmetric (s : UKF) (m : MeasurementPackage) :
  inverse_keeps_symmetry inverse -> n_x_ s = 5%nat ->
  symmetric (P_ (ProcessMeasurement llt inverse s m)).
Proof.
  intros Hinv Hn.
  destruct (is_initialized_ s) eqn:Hinit.
  - rewrite ProcessMeasurement_tracking by exact Hinit.
    assert (HP : symmetric (P_ (predicted llt s m)))
      by apply predicted_symmetric.
    assert (Hn' : n_x_ (predicted llt s m) = 5%nat).
    { destruct (predicted_configuration llt s m) as (Hc & _).
      unfold same_configuration in Hc. intuition congruence. }
    destruct (Z.eqb _ RADAR).
    + apply UpdateRadar_symmetric; [exact HP |].
      apply Hinv. intros i j _ _. apply UpdateRadar_S_symmetric.
    + destruct (Z.eqb _ LASER); [| exact HP].
      apply UpdateLidar_symmetric; [exact Hn' | exact HP |].
      apply Hinv. apply UpdateLidar_S_symmetric; assumption.
  - unfold ProcessMeasurement. rewrite Hinit. cbn [negb].
    apply ProcessMeasurement_init_symmetric.
Qed.

(** X6: the covariance is symmetric after every call.  For an estimator
    with the constructor's state dimension and an inverse that returns a
    symmetric matrix for a symmetric one, P_ is symmetric after any
    stream of at least one package, whatever the tags, the measurements
    and the covariance before. *)
Theorem covariance_stays_symmetric (ms : list MeasurementPackage)
  (m : MeasurementPackage) (s : UKF) :
  inverse_keeps_symmetry inverse -> n_x_ s = 5%nat ->
  symmetric (P_ (process_all llt inverse (ms ++ [m]) s)).
Proof.
  intros Hinv Hn. rewrite process_all_snoc.
  apply ProcessMeasurement_symmetric; [exact Hinv |].
  pose proof (process_all_configuration llt inverse ms s) as Hc.
  unfold same_configuration in Hc. intuition congruence.
Qed.



End UpdateFacts.

Lemma covariance_stays_symmetric_witness :
  symmetric
    (P_ (process_all Eigen_llt Eigen_inverse ([lidar_2_3] ++ [lidar_next])
           UKF_new)).
Proof.
  apply (covariance_stays_symmetric Eigen_llt Eigen_inverse [lidar_2_3]
           lidar_next UKF_new).
  - exact Eigen_inverse_keeps_symmetry.
  - reflexivity.
Defined.




(** ** The radar measurement function *)

(** The projection of a position on a unit direction is at most its
    distance from the origin. *)
Lemma projection_le_norm (px py a : R) :
  Rabs (px * cos a + py * sin a) <= sqrt (px * px + py * py).
Proof.
  rewrite <- sqrt_Rsqr_abs. apply sqrt_le_1_alt. unfold Rsqr.
  pose proof (sin2_cos2 a) as Hsc. unfold Rsqr in Hsc.
  pose proof (Rle_0_sqr (px * sin a - py * cos a)) as Hsq.
  unfold Rsqr in Hsq.
  assert (Hid : px * px + py * py
                - (px * cos a + py * sin a) * (px * cos a + py * sin a)
                = (px * sin a - py * cos a) * (px * sin a - py * cos a)).
  { replace (px * px + py * py)
      with ((px * px + py * py) * (sin a * sin a + cos a * cos a))
      by (rewrite Hsc; ring).
    ring. }
  lra.
Qed.

Lemma quotient_bounded (q v z : R) :
  Rabs q <= z -> 0 < z -> Rabs (q * v / z) <= Rabs v.
Proof.
  intros Hq Hz. unfold Rdiv. rewrite !Rabs_mult.
  rewrite (Rabs_right (/ z)) by (left; apply Rinv_0_lt_compat; exact Hz).
  pose proof (Rabs_pos v) as Hv. pose proof (Rabs_pos q) as Hq0.
  apply (Rmult_le_reg_r z); [exact Hz |].
  replace (Rabs q * Rabs v * / z * z) with (Rabs q * Rabs v)
    by (field; lra).
  nra.
Qed.

(** X9: the range rate that the radar transform computes for a predicted
    sigma point never exceeds the speed of that point in magnitude,
    whether the range was clamped or not. *)
Theorem radar_range_rate_bounded (s : UKF) (i : nat) :
  (i < 2 * n_aug_ s + 1)%nat ->
  Rabs (UpdateRadar_Zsig s 2%nat i) <= Rabs (Xsig_pred_ s 2%nat i).
Proof.
  intros Hi. unfold UpdateRadar_Zsig.
  rewrite (UpdateRadar_Zsig_loop_lookup _ _ _ _ _ Hi) by lia.
  destruct (UpdateRadar_Zsig_body_values (Xsig_pred_ s) i MatrixXd_new)
    as (H0 & _ & H2).
  cbv zeta in H0, H2. rewrite H2, H0.
  set (px := Xsig_pred_ s 0%nat i). set (py := Xsig_pred_ s 1%nat i).
  set (v := Xsig_pred_ s 2%nat i). set (yaw := Xsig_pred_ s 3%nat i).
  replace (px * (cos yaw * v) + py * (sin yaw * v))
    with ((px * cos yaw + py * sin yaw) * v) by ring.
  pose proof (projection_le_norm px py yaw) as Hq.
  apply quotient_bounded.
  - destruct (Rlt_dec (sqrt (px * px + py * py)) 0.001); lra.
  - pose proof (sqrt_pos (px * px + py * py)).
    destruct (Rlt_dec (sqrt (px * px + py * py)) 0.001); lra.
Qed.

Lemma radar_range_rate_bounded_witness :
  Rabs (UpdateRadar_Zsig (predicted Eigen_llt tracking radar_next)
          2%nat 0%nat)
  <= Rabs (Xsig_pred_ (predicted Eigen_llt tracking radar_next)
             2%nat 0%nat).
Proof.
  apply (radar_range_rate_bounded (predicted Eigen_llt tracking radar_next) 0).
  lia.
Defined.






(** ** The lidar update on an uncorrelated position *)

Section LidarGain.

Variable inverse : nat -> MatrixXd -> MatrixXd.

(** X11: when the two position coordinates are uncorrelated in P_ and
    the inverse handed back for the innovation covariance is a right
    inverse of it, the enabled lidar update moves each position
    coordinate toward the measurement by the gain P/(P + sigma^2) of that
    coordinate, leaves the position variance P*sigma^2/(P + sigma^2), and
    sets the NIS to the sum of the squared innovations over their
    variances P + sigma^2. *)
Theorem UpdateLidar_uncorrelated_position (s : UKF)
  (m : MeasurementPackage) :
  use_laser_ s = true -> n_x_ s = 5%nat ->
  P_ s 0%nat 1%nat = 0 -> P_ s 1%nat 0%nat = 0 ->
  P_ s 0%nat 0%nat + std_laspx_ s * std_laspx_ s <> 0 ->
  P_ s 1%nat 1%nat + std_laspy_ s * std_laspy_ s <> 0 ->
  right_inverse 2 (UpdateLidar_S s) (inverse 2 (UpdateLidar_S s)) ->
  let s' := UpdateLidar inverse s m in
  let Sx := P_ s 0%nat 0%nat + std_laspx_ s * std_laspx_ s in
  let Sy := P_ s 1%nat 1%nat + std_laspy_ s * std_laspy_ s in
  let zx := raw_measurements_ m 0%nat - x_ s 0%nat in
  let zy := raw_measurements_ m 1%nat - x_ s 1%nat in
  x_ s' 0%nat = x_ s 0%nat + P_ s 0%nat 0%nat / Sx * zx /\
  x_ s' 1%nat = x_ s 1%nat + P_ s 1%nat 1%nat / Sy * zy /\
  P_ s' 0%nat 0%nat
  = P_ s 0%nat 0%nat * (std_laspx_ s * std_laspx_ s) / Sx /\
  P_ s' 1%nat 1%nat
  = P_ s 1%nat 1%nat * (std_laspy_ s * std_laspy_ s) / Sy /\
  NIS_laser_ s' = zx * zx / Sx + zy * zy / Sy.
Proof.
  intros Hon Hn H01 H10 HSx HSy Hinv. cbv zeta.
  destruct (UpdateLidar_S_block s Hn) as (S00 & S01 & S10 & S11).
  rewrite H01 in S01. rewrite H10 in S10.
  (* the entries of the inverse *)
  pose proof (Hinv 0%nat 0%nat ltac:(lia) ltac:(lia)) as I00.
  pose proof (Hinv 0%nat 1%nat ltac:(lia) ltac:(lia)) as I01.
  pose proof (Hinv 1%nat 0%nat ltac:(lia) ltac:(lia)) as I10.
  pose proof (Hinv 1%nat 1%nat ltac:(lia) ltac:(lia)) as I11.
  unfold mmul, Identity in I00, I01, I10, I11.
  cbn [sum_upto Nat.eqb] in I00, I01, I10, I11.
  rewrite S00, S01 in I00, I01. rewrite S10, S11 in I10, I11.
  destruct (lidar_innovation s m Hn) as [Hz0 Hz1]. cbv zeta in Hz0, Hz1.
  assert (HHP : forall k j, (k < 2)%nat ->
            mmul (n_x_ s) UpdateLidar_H (P_ s) k j = P_ s k j)
    by (intros; apply lidar_HP; assumption).
  unfold UpdateLidar. rewrite Hon. cbn [negb].
  cbn [x_ P_ NIS_laser_ set_x_ set_P_ set_NIS_laser_].
  revert I00 I01 I10 I11 Hz0 Hz1 HHP.
  generalize (inverse 2%nat (UpdateLidar_S s))
    (mmul (n_x_ s) UpdateLidar_H (P_ s))
    (vsub (raw_measurements_ m) (mvmul (n_x_ s) UpdateLidar_H (x_ s))).
  intros Si HP z I00 I01 I10 I11 Hz0 Hz1 HHP.
  set (Sx := P_ s 0%nat 0%nat + std_laspx_ s * std_laspx_ s) in *.
  set (Sy := P_ s 1%nat 1%nat + std_laspy_ s * std_laspy_ s) in *.
  assert (E00 : Si 0%nat 0%nat = / Sx).
  { apply (Rmult_eq_reg_l Sx); [| exact HSx].
    rewrite Rinv_r by exact HSx. lra. }
  assert (E01 : Si 0%nat 1%nat = 0).
  { apply (Rmult_eq_reg_l Sx); [| exact HSx]. lra. }
  assert (E10 : Si 1%nat 0%nat = 0).
  { apply (Rmult_eq_reg_l Sy); [| exact HSy]. lra. }
  assert (E11 : Si 1%nat 1%nat = / Sy).
  { apply (Rmult_eq_reg_l Sy); [| exact HSy].
    rewrite Rinv_r by exact HSy. lra. }
  unfold vadd, mvmul, msub, mmul, transpose, quadratic_form.
  cbn [sum_upto].
  rewrite !HHP by lia.
  rewrite E00, E01, E10, E11, H01, H10, Hz0, Hz1.
  repeat split.
  - unfold Rdiv. ring.
  - unfold Rdiv. ring.
  - unfold Sx, Sy in *. field.
    repeat split; intros Heq; first [apply HSx; lra | apply HSy; lra].
  - unfold Sx, Sy in *. field.
    repeat split; intros Heq; first [apply HSx; lra | apply HSy; lra].
  - unfold Rdiv. ring.
Qed.

End LidarGain.

(** The cofactor inverse of a 2 x 2 block with nonzero determinant is a
    right inverse. *)
Lemma Eigen_inverse_2_right (A : MatrixXd) :
  A 0%nat 0%nat * A 1%nat 1%nat - A 0%nat 1%nat * A 1%nat 0%nat <> 0 ->
  right_inverse 2 A (Eigen_inverse 2 A).
Proof.
  intros Hdet i j Hi Hj. unfold mmul, Eigen_inverse, Identity.
  destruct i as [| [| i]]; [| | lia]; destruct j as [| [| j]]; try lia;
    cbn; unfold minor; cbn; field; lra.
Qed.

Lemma tracking_P_position :
  P_ tracking 0%nat 0%nat = 0.15 * 0.15 /\ P_ tracking 0%nat 1%nat = 0 /\
  P_ tracking 1%nat 0%nat = 0 /\ P_ tracking 1%nat 1%nat = 0.15 * 0.15.
Proof.
  unfold tracking, ProcessMeasurement, ProcessMeasurement_init.
  cbn [is_initialized_ UKF_new negb sensor_type_ lidar_2_3 Z.eqb LASER RADAR].
  cbn [P_ set_x_ set_P_ set_NIS_laser_ set_time_us_ set_is_initialized_
       std_laspx_ std_laspy_].
  unfold mset, Identity. cbn [Nat.eqb andb]. repeat split; lra.
Qed.

Lemma UpdateLidar_uncorrelated_position_witness :
  x_ (UpdateLidar Eigen_inverse tracking lidar_next) 0%nat
  = x_ tracking 0%nat
    + P_ tracking 0%nat 0%nat
      / (P_ tracking 0%nat 0%nat + std_laspx_ tracking * std_laspx_ tracking)
      * (raw_measurements_ lidar_next 0%nat - x_ tracking 0%nat).
Proof.
  destruct tracking_P_position as (P00 & P01 & P10 & P11).
  assert (Hsx : std_laspx_ tracking = 0.15) by reflexivity.
  assert (Hsy : std_laspy_ tracking = 0.15) by reflexivity.
  assert (Hn : n_x_ tracking = 5%nat) by reflexivity.
  destruct (UpdateLidar_S_block tracking Hn) as (S00 & S01 & S10 & S11).
  apply (UpdateLidar_uncorrelated_position Eigen_inverse tracking lidar_next).
  - reflexivity.
  - exact Hn.
  - exact P01.
  - exact P10.
  - rewrite P00, Hsx. lra.
  - rewrite P11, Hsy. lra.
  - apply Eigen_inverse_2_right.
    rewrite S00, S01, S10, S11, P00, P01, P10, P11, Hsx, Hsy. lra.
Defined.

(** ** The weights for any augmented dimension *)

(** X12: for every augmented dimension n_aug the constructor's loop,
    run with lambda = 3 - n_aug, gives the centre weight (3 - n_aug)/3
    and 2*n_aug weights of 1/6 each, which add up to 1; the centre weight
    is negative as soon as n_aug exceeds 3, as it is for the estimator's
    n_aug = 7. *)
Theorem init_weights_any_dimension (n : nat) :
  let w := init_weights n (3 - INR n) in
  w 0%nat = (3 - INR n) / 3 /\
  Forall (fun i => w i = 1 / 6) (seq 1 (2 * n)) /\
  sum_upto (2 * n + 1) w = 1 /\
  ((3 < n)%nat -> w 0%nat < 0).
Proof.
  cbv zeta.
  assert (H0 : init_weights n (3 - INR n) 0%nat = (3 - INR n) / 3).
  { rewrite init_weights_lookup. cbn [Nat.eqb]. f_equal. lra. }
  split; [exact H0 |]. split; [| split].
  - apply Forall_forall. intros i Hi. apply in_seq in Hi.
    rewrite init_weights_lookup.
    destruct (Nat.eqb_spec i 0); [lia |].
    destruct (Nat.ltb_spec i (2 * n + 1)); [| lia].
    replace (INR n + (3 - INR n)) with 3 by lra. lra.
  - apply init_weights_sum. lra.
  - intros Hn. rewrite H0. apply lt_INR in Hn. simpl INR in Hn. lra.
Qed.

(** ** Angle normalisation below -pi *)

Lemma fmod_nonpos_range (x y : R) :
  x <= 0 -> 0 < y -> - y < fmod x y <= 0.
Proof.
  intros Hx Hy. unfold fmod, Rtrunc.
  assert (Hxy : x = x / y * y) by (field; lra).
  destruct (Rle_dec 0 (x / y)) as [Hq | Hq].
  - assert (Hq0 : x / y = 0).
    { assert (x / y * y <= 0) by lra.
      assert (0 <= x / y * y) by (apply Rmult_le_pos; lra).
      nra. }
    assert (Hx0 : x = 0) by (rewrite Hxy, Hq0; ring).
    rewrite Hq0.
    rewrite <- (Int_part_spec 0 0%Z) by (simpl; lra).
    simpl. lra.
  - destruct (base_Int_part (- (x / y))) as [Hlo Hhi].
    rewrite opp_IZR.
    set (k := IZR (Int_part (- (x / y)))) in *.
    assert (H1 : k * y <= - (x / y) * y)
      by (apply Rmult_le_compat_r; lra).
    assert (H2 : - (x / y) * y < (k + 1) * y)
      by (apply Rmult_lt_compat_r; lra).
    lra.
Qed.

(** X13: for an angle below -pi the expression
    fmod(a + M_PI, 2.0*M_PI) - M_PI does not wrap into [-pi, pi): its
    result differs from the angle by a whole number of turns but lies in
    (-3*pi, -pi]. *)
Theorem normalize_angle_below_minus_PI (a : R) :
  a < - PI ->
  - 3 * PI < normalize_angle a <= - PI /\
  exists k : Z, normalize_angle a = a - IZR k * (2 * PI).
Proof.
  intros Ha. pose proof PI_RGT_0 as Hpi. pose proof two_pi_pos as H2pi.
  split.
  - unfold normalize_angle.
    destruct (fmod_nonpos_range (a + M_PI) (2.0 * M_PI)) as [Hlo Hhi];
      unfold M_PI in *; lra.
  - exists (Rtrunc ((a + M_PI) / (2.0 * M_PI))).
    unfold normalize_angle, fmod, M_PI. lra.
Qed.

Lemma normalize_angle_below_minus_PI_witness :
  - 3 * PI < normalize_angle (- 2 * PI) <= - PI.
Proof.
  apply (normalize_angle_below_minus_PI (- 2 * PI)).
  pose proof PI_RGT_0. lra.
Defined.

(** ** Streams with both sensors switched off *)

Section DeadReckoning.

Variable llt : nat -> MatrixXd -> LLT.
Variable inverse : nat -> MatrixXd -> MatrixXd.





End DeadReckoning.


